(** * SPEI utilities: a shallow embedding of [src/spei/utils.py]

    The module validates time-series input, regroups a series into a
    table with one column per calendar year ([group_yearly_df]), flattens
    such a table back into one series ([get_data_series]) and runs
    goodness-of-fit tests over candidate distributions ([dist_test],
    [dists_test]).

    Python values are modelled as follows: [int] as [Z], [float] as the
    kernel's binary64 [float] (with its NaN), [str] as [string], a raised
    exception as the [Raise] branch of [Exc], log output as a list of
    records returned next to the result. *)

From Stdlib Require Import ZArith List String Ascii Bool Lia Floats.
From Stdlib Require Import DecimalString DecimalZ Permutation Sorted.
Import ListNotations.

Open Scope string_scope.
Open Scope Z_scope.

Set Implicit Arguments.

(** ** Exceptions *)

(** The exception classes that the module or the library calls under it
    raise.  [TypeError] carries its message. *)
Inductive PyExn : Type :=
| TypeError (msg : string)
| AttributeError
| ValueError
| IndexError
| KeyError.

Inductive Exc (A : Type) : Type :=
| Ok (a : A)
| Raise (e : PyExn).

Arguments Ok {A} a.
Arguments Raise {A} e.

Definition bind {A B : Type} (c : Exc A) (k : A -> Exc B) : Exc B :=
  match c with
  | Ok a => k a
  | Raise e => Raise e
  end.

Notation "x <- c ;; k" := (bind c (fun x => k))
  (at level 61, c at next level, right associativity).

(** A comprehension whose body may raise: the first exception ends it. *)
Fixpoint mapM {A B : Type} (f : A -> Exc B) (l : list A) : Exc (list B) :=
  match l with
  | [] => Ok []
  | a :: l' =>
      b <- f a ;;
      bs <- mapM f l' ;;
      Ok (b :: bs)
  end.

(** ** Python strings *)

Module PyStr.

(** [s.split(sep)] for a one-character separator (both separators of the
    source, a blank and a dash, are one character long).  The result is
    never empty: [EmptyString] splits into one empty field. *)
Fixpoint split (sep : ascii) (s : string) : list string :=
  match s with
  | EmptyString => [EmptyString]
  | String c s' =>
      if Ascii.eqb c sep then EmptyString :: split sep s'
      else match split sep s' with
           | h :: t => String c h :: t
           | [] => [String c EmptyString]
           end
  end.

(** [s.split(sep, 1)]: at most one cut, at the first separator. *)
Fixpoint split1 (sep : ascii) (s : string) : list string :=
  match s with
  | EmptyString => [EmptyString]
  | String c s' =>
      if Ascii.eqb c sep then [EmptyString; s']
      else match split1 sep s' with
           | h :: t => String c h :: t
           | [] => [String c EmptyString]
           end
  end.

(** [l[i]] for a non-negative literal [i]. *)
Definition item {A : Type} (l : list A) (i : nat) : Exc A :=
  match nth_error l i with
  | Some a => Ok a
  | None => Raise IndexError
  end.

(** [f"{n}"] for an [int]: decimal digits, a dash in front of a negative
    number. *)
Definition format_int (n : Z) : string :=
  NilZero.string_of_int (Z.to_int n).

Definition is_digit (c : ascii) : bool :=
  let n := nat_of_ascii c in (48 <=? n)%nat && (n <=? 57)%nat.

Fixpoint all_digits (s : string) : bool :=
  match s with
  | EmptyString => true
  | String c s' => is_digit c && all_digits s'
  end.

(** [int(s)] on a string of decimal digits; an empty string or any other
    character raises [ValueError].  (Python also takes a sign, blanks
    around the number and underscores between digits; the strings this
    module passes to [int] are the digits [format_int] printed.) *)
Definition int (s : string) : Exc Z :=
  match s with
  | EmptyString => Raise ValueError
  | String _ _ =>
      if all_digits s then
        match NilEmpty.uint_of_string s with
        | Some d => Ok (Z.of_uint d)
        | None => Raise ValueError
        end
      else Raise ValueError
  end.

(** One decimal digit as a character, and back. *)
Definition digit_char (d : Z) : ascii := ascii_of_nat (48 + Z.to_nat d).

Definition digit_val (c : ascii) : option Z :=
  if is_digit c then Some (Z.of_nat (nat_of_ascii c) - 48) else None.

(** [%m], [%d], [%H], [%M], [%S]: two digits, zero padded. *)
Definition pad2 (n : Z) : string :=
  String (digit_char (n / 10)) (String (digit_char (n mod 10)) EmptyString).

End PyStr.

(** ** Timestamps *)

(** A pandas [Timestamp]: calendar fields down to the nanosecond.  A
    [DatetimeIndex] is a list of them. *)
Record Timestamp : Type := mkTimestamp {
  year : Z;
  month : Z;
  day : Z;
  hour : Z;
  minute : Z;
  second : Z;
  nanosecond : Z
}.

Definition DatetimeIndex : Type := list Timestamp.

(** [calendar.isleap] *)
Definition isleap (y : Z) : bool :=
  (y mod 4 =? 0) && (negb (y mod 100 =? 0) || (y mod 400 =? 0)).

Definition days_in_month (y m : Z) : Z :=
  if m =? 2 then (if isleap y then 29 else 28)
  else if (m =? 4) || (m =? 6) || (m =? 9) || (m =? 11) then 30
  else 31.

(** The position of a timestamp on the time line, as a mixed-radix
    number: for fields in their calendar ranges its order is the
    chronological order, which is how pandas compares and sorts
    timestamps. *)
Definition ts_key (t : Timestamp) : Z :=
  ((((((year t * 13 + month t) * 32 + day t) * 24 + hour t) * 60
      + minute t) * 60 + second t) * 1000000000) + nanosecond t.

Definition ts_leb (a b : Timestamp) : bool := ts_key a <=? ts_key b.

Definition ts_eqb (a b : Timestamp) : bool :=
  (year a =? year b) && (month a =? month b) && (day a =? day b) &&
  (hour a =? hour b) && (minute a =? minute b) && (second a =? second b) &&
  (nanosecond a =? nanosecond b).

(** [Timestamp.min] and [Timestamp.max]: what 64 bits of nanoseconds
    around 1970 can hold. *)
Definition ts_min : Timestamp := mkTimestamp 1677 9 21 0 12 43 145224193.
Definition ts_max : Timestamp := mkTimestamp 2262 4 11 23 47 16 854775807.

Definition valid_fields (t : Timestamp) : bool :=
  (1 <=? month t) && (month t <=? 12) &&
  (1 <=? day t) && (day t <=? days_in_month (year t) (month t)) &&
  (0 <=? hour t) && (hour t <? 24) &&
  (0 <=? minute t) && (minute t <? 60) &&
  (0 <=? second t) && (second t <? 60) &&
  (0 <=? nanosecond t) && (nanosecond t <? 1000000000).

Definition in_bounds (t : Timestamp) : bool :=
  ts_leb ts_min t && ts_leb t ts_max.

(** The invariant of every [Timestamp] that pandas holds. *)
Definition valid_timestamp (t : Timestamp) : bool :=
  valid_fields t && in_bounds t.

(** [index.strftime("%m-%d %H:%M:%S")] on one timestamp. *)
Definition strfstr (t : Timestamp) : string :=
  PyStr.pad2 (month t) ++ "-" ++ PyStr.pad2 (day t) ++ " " ++
  PyStr.pad2 (hour t) ++ ":" ++ PyStr.pad2 (minute t) ++ ":" ++
  PyStr.pad2 (second t).

(** *** Parsing with the format ["%Y-%m-%d %H:%M:%S"] *)

Module Parse.

Definition digits2 (s : string) : option (Z * string) :=
  match s with
  | String a (String b rest) =>
      match PyStr.digit_val a, PyStr.digit_val b with
      | Some x, Some y => Some (10 * x + y, rest)
      | _, _ => None
      end
  | _ => None
  end.

Definition digits4 (s : string) : option (Z * string) :=
  match digits2 s with
  | Some (hi, rest) =>
      match digits2 rest with
      | Some (lo, rest') => Some (100 * hi + lo, rest')
      | None => None
      end
  | None => None
  end.

Definition expect (c : ascii) (s : string) : option string :=
  match s with
  | String a rest => if Ascii.eqb a c then Some rest else None
  | EmptyString => None
  end.

Definition andThen {A B : Type} (o : option A) (k : A -> option B) : option B :=
  match o with
  | Some a => k a
  | None => None
  end.

(** The fields of a string [YYYY-MM-DD HH:MM:SS], nothing before or
    after. *)
Definition fields (s : string) : option Timestamp :=
  andThen (digits4 s) (fun '(y, s) =>
  andThen (expect "-" s) (fun s =>
  andThen (digits2 s) (fun '(m, s) =>
  andThen (expect "-" s) (fun s =>
  andThen (digits2 s) (fun '(d, s) =>
  andThen (expect " " s) (fun s =>
  andThen (digits2 s) (fun '(hh, s) =>
  andThen (expect ":" s) (fun s =>
  andThen (digits2 s) (fun '(mm, s) =>
  andThen (expect ":" s) (fun s =>
  andThen (digits2 s) (fun '(ss, s) =>
  match s with
  | EmptyString => Some (mkTimestamp y m d hh mm ss 0)
  | String _ _ => None
  end))))))))))).

End Parse.

(** [to_datetime(s, format="%Y-%m-%d %H:%M:%S")] on one string: the year
    takes four digits, and the date has to exist and to fit a
    [Timestamp]; anything else raises [ValueError] (pandas'
    [OutOfBoundsDatetime] is a [ValueError]).  The other fields are read
    as the two digits that [strfstr] prints. *)
Definition to_datetime1 (s : string) : Exc Timestamp :=
  match Parse.fields s with
  | Some t => if valid_timestamp t then Ok t else Raise ValueError
  | None => Raise ValueError
  end.

(** [to_datetime(strings, format="%Y-%m-%d %H:%M:%S")] *)
Definition to_datetime (l : list string) : Exc DatetimeIndex :=
  mapM to_datetime1 l.

(** ** Series, tables and arrays *)

(** A series of floats over a [DatetimeIndex]: the (timestamp, value)
    entries in their order.  A missing value is the float NaN. *)
Definition Series : Type := list (Timestamp * float).

(** A pandas [DataFrame]: row labels, column labels, and the cells as
    [.values] gives them, one list per row. *)
Record DataFrame (I C A : Type) : Type := mkFrame {
  index : list I;
  columns : list C;
  values : list (list A)
}.

Arguments mkFrame {I C A} _ _ _.

Section Arrays.
Context {A : Type}.

(** Puts [r] in front of the rows: one more column. *)
Fixpoint zip_cons (r : list A) (rows : list (list A)) : list (list A) :=
  match r, rows with
  | a :: r', c :: rows' => (a :: c) :: zip_cons r' rows'
  | _, _ => []
  end.

(** The transpose of a matrix whose rows are [width] long. *)
Fixpoint transpose_rows (width : nat) (rows : list (list A)) : list (list A) :=
  match rows with
  | [] => repeat [] width
  | r :: rs => zip_cons r (transpose_rows width rs)
  end.

(** [array.flatten()] of a two-dimensional array: row after row. *)
Definition flatten (rows : list (list A)) : list A := List.concat rows.

(** [a[boolidx]]: the entries at which the mask is true. *)
Fixpoint mask (a : list A) (boolidx : list bool) : list A :=
  match a, boolidx with
  | x :: a', b :: m' => if b then x :: mask a' m' else mask a' m'
  | _, _ => []
  end.
End Arrays.

(** [df.transpose()] *)
Definition transpose {I C A : Type} (df : DataFrame I C A) : DataFrame C I A :=
  mkFrame (columns df) (index df)
          (transpose_rows (List.length (columns df)) (values df)).

(** [~array(bools)].  The array of an empty list has dtype float64, on
    which [~] is not defined: numpy raises [TypeError]. *)
Definition invert (bools : list bool) : Exc (list bool) :=
  match bools with
  | [] =>
      Raise (TypeError
               ("ufunc 'invert' not supported for the input types, and the " ++
                "inputs could not be safely coerced to any supported types " ++
                "according to the casting rule ''safe''"))
  | _ :: _ => Ok (map negb bools)
  end.

(** [Series(values, index=idx)]: the two lengths have to agree. *)
Definition mkSeries (vals : list float) (idx : DatetimeIndex) : Exc Series :=
  if (List.length vals =? List.length idx)%nat then Ok (combine idx vals)
  else Raise ValueError.

(** [series.dropna()] *)
Definition dropna (s : Series) : Series :=
  filter (fun e => negb (PrimFloat.is_nan (snd e))) s.

(** *** Grouping by calendar year *)

(** Stable insertion by timestamp. *)
Fixpoint insert_by_time (e : Timestamp * float) (l : Series) : Series :=
  match l with
  | [] => [e]
  | x :: l' =>
      if ts_leb (fst e) (fst x) then e :: l else x :: insert_by_time e l'
  end.

(** A time grouper sorts its object by index first, with a stable sort. *)
Fixpoint sort_index (s : Series) : Series :=
  match s with
  | [] => []
  | e :: s' => insert_by_time e (sort_index s')
  end.

Definition years_between (y0 y1 : Z) : list Z :=
  map (fun k => y0 + Z.of_nat k) (seq 0 (Z.to_nat (y1 - y0 + 1))).

(** The bins of [Grouper(freq="Y")] end with the years.  pandas lays
    them out between two edges, [first.normalize() - YearEnd()] and
    [last.normalize() + YearEnd()] for the first and the last entry in
    time order: the December 31 before the first entry, and the first
    December 31 after the last entry's day. *)
Definition first_edge (first : Timestamp) : Timestamp :=
  mkTimestamp (year first - 1) 12 31 0 0 0 0.

Definition last_edge (last : Timestamp) : Timestamp :=
  if (month last =? 12) && (day last =? 31)
  then mkTimestamp (year last + 1) 12 31 0 0 0 0
  else mkTimestamp (year last) 12 31 0 0 0 0.

(** Both edges are timestamps.  One that does not fit makes the grouper
    raise [OutOfBoundsDatetime] (a [ValueError]): so it is for a first
    entry in 1677, and for a last entry in 2262 or on 2261-12-31. *)
Definition edges_fit (sorted : Series) : bool :=
  match sorted with
  | [] => true
  | e :: _ =>
      in_bounds (first_edge (fst e)) &&
      in_bounds (last_edge (fst (last sorted e)))
  end.

(** The year of the last bin.  A bin runs to the last nanosecond of its
    December 31; the bin that [last_edge] opens after a last entry on a
    December 31 is dropped again, unless that entry is the very last
    nanosecond of its year. *)
Definition last_bin_year (last : Timestamp) : Z :=
  if (month last =? 12) && (day last =? 31) && (hour last =? 23) &&
     (minute last =? 59) && (second last =? 59) &&
     (nanosecond last =? 999999999)
  then year last + 1
  else year last.

(** The groups of [series.groupby(Grouper(freq="Y"))], once the bins are
    laid out: one group per bin, from the first entry's year to the last
    bin's, a year without entries giving an empty group; no group at all
    for an empty series.  Each pair is the group's year (the source reads
    it as [year.year] off the group's label, the year's last day) and the
    group. *)
Definition groupby_year (series : Series) : list (Z * Series) :=
  let sorted := sort_index series in
  match sorted with
  | [] => []
  | e :: _ =>
      map (fun y => (y, filter (fun x => year (fst x) =? y) sorted))
          (years_between (year (fst e)) (last_bin_year (fst (last sorted e))))
  end.

(** [series.groupby(Grouper(freq="Y"))], iterated: the bins are laid out
    first, and that may raise. *)
Definition iter_groupby_year (series : Series) : Exc (list (Z * Series)) :=
  if edges_fit (sort_index series) then Ok (groupby_year series)
  else Raise ValueError.

(** *** Column-wise concatenation *)

Fixpoint index_eqb (a b : DatetimeIndex) : bool :=
  match a, b with
  | [], [] => true
  | x :: a', y :: b' => ts_eqb x y && index_eqb a' b'
  | _, _ => false
  end.

(** The sorted union of two sorted indexes; a label that both have is
    taken once. *)
Fixpoint merge_index (a : DatetimeIndex) : DatetimeIndex -> DatetimeIndex :=
  fix merge_aux (b : DatetimeIndex) : DatetimeIndex :=
    match a, b with
    | [], _ => b
    | _, [] => a
    | x :: a', y :: b' =>
        if ts_eqb x y then x :: merge_index a' b'
        else if ts_leb x y then x :: merge_index a' b
        else y :: merge_aux b'
    end.

(** [a.union(b)] *)
Definition index_union (a b : DatetimeIndex) : DatetimeIndex :=
  match a, b with
  | _, [] => a
  | [], _ => b
  | _, _ => if index_eqb a b then a else merge_index a b
  end.

Fixpoint has_duplicates (a : DatetimeIndex) : bool :=
  match a with
  | [] => false
  | x :: a' => existsb (ts_eqb x) a' || has_duplicates a'
  end.

(** The value of [s] at the label [t]; NaN where [s] has no such label. *)
Definition lookup (s : Series) (t : Timestamp) : float :=
  match find (fun e => ts_eqb (fst e) t) s with
  | Some e => snd e
  | None => PrimFloat.nan
  end.

(** [s.reindex(idx)]: the values of [s] along [idx].  A series that is
    already on [idx] is taken as it is; otherwise the labels of [s] must
    not repeat. *)
Definition reindex (s : Series) (idx : DatetimeIndex) : Exc (list float) :=
  if index_eqb (map fst s) idx then Ok (map snd s)
  else if has_duplicates (map fst s) then Raise ValueError
  else Ok (map (lookup s) idx).

(** [concat(grs, axis=1)] on a dict of series in insertion order: the
    keys become the columns, the union of the indexes becomes the index,
    and each series is laid out along it.  Nothing to concatenate raises
    [ValueError]. *)
Definition concat_axis1 (grs : list (Z * Series))
  : Exc (DataFrame Timestamp Z float) :=
  match grs with
  | [] => Raise ValueError
  | (_, g) :: rest =>
      let idx :=
        fold_left index_union (map (fun p => map fst (snd p)) rest) (map fst g) in
      cols <- mapM (fun p => reindex (snd p) idx) grs ;;
      Ok (mkFrame idx (map fst grs) (transpose_rows (List.length idx) cols))
  end.

(** ** The yearly regrouper and the flattener *)

(** [gry.index = to_datetime("2000-" + gry.index.strftime(strfstr),
    format="%Y-" + strfstr)]: assigning an index of another length raises
    [ValueError]. *)
Definition rekey_2000 (gry : Series) : Exc Series :=
  idx <- to_datetime (map (fun t => "2000-" ++ strfstr t) (map fst gry)) ;;
  mkSeries (map snd gry) idx.

Definition group_yearly_df (series : Series)
  : Exc (DataFrame Timestamp Z float) :=
  groups <- iter_groupby_year series ;;
  grs <- mapM (fun g => gry <- rekey_2000 (snd g) ;; Ok (fst g, gry)) groups ;;
  concat_axis1 grs.

(** The test of the source's comprehension on one string [x]:
    [x.split(" ")[0].split("-", 1)[1] == "02-29"
     and not isleap(int(x.split(" ")[0].split("-")[0]))];
    the right operand of [and] runs only when the left one holds. *)
Definition illegal_feb29 (x : string) : Exc bool :=
  date <- PyStr.item (PyStr.split " " x) 0 ;;
  md <- PyStr.item (PyStr.split1 "-" date) 1 ;;
  if String.eqb md "02-29" then
    date' <- PyStr.item (PyStr.split " " x) 0 ;;
    ystr <- PyStr.item (PyStr.split "-" date') 0 ;;
    y <- PyStr.int ystr ;;
    Ok (negb (isleap y))
  else Ok false.

Definition get_data_series (group_df : DataFrame Timestamp Z float)
  : Exc Series :=
  let idx :=
    flatten (map (fun col =>
                    map (fun t => PyStr.format_int col ++ "-" ++ strfstr t)
                        (index group_df))
                 (columns group_df)) in
  illegal <- mapM illegal_feb29 idx ;;
  boolidx <- invert illegal ;;
  dt_idx <- to_datetime (mask idx boolidx) ;;
  let vals := mask (flatten (values (transpose group_df))) boolidx in
  s <- mkSeries vals dt_idx ;;
  Ok (dropna s).

(** ** Input validation *)

Module Validate.

(** A Python or numpy scalar, as a cell or a label of a table. *)
Inductive Scalar : Type :=
| SInt (z : Z)
| SFloat (f : float)
| SStr (s : string)
| SBool (b : bool).

(** A pandas [Series] of any dtype: its name, labels and values. *)
Record GSeries : Type := mkGSeries {
  sname : option Scalar;
  sindex : list Scalar;
  svalues : list Scalar
}.

(** The objects [validate_series] is handed.  Python checks the class of
    its argument only when the code asks, so the argument ranges over all
    of them. *)
Inductive PyObj : Type :=
| PySeries (s : GSeries)
| PyDataFrame (df : DataFrame Scalar Scalar Scalar)
| PyList (items : list Scalar)
| PyTuple (items : list Scalar)
| PyDict (items : list (Scalar * Scalar))
| PyNdarray (items : list Scalar)
| PyInt (z : Z)
| PyFloat (f : float)
| PyStr (s : string)
| PyBool (b : bool)
| PyNone
| NpScalar (c : Scalar).

(** [type(obj)] as an f-string prints it. *)
Definition type_repr (o : PyObj) : string :=
  match o with
  | PySeries _ => "<class 'pandas.core.series.Series'>"
  | PyDataFrame _ => "<class 'pandas.core.frame.DataFrame'>"
  | PyList _ => "<class 'list'>"
  | PyTuple _ => "<class 'tuple'>"
  | PyDict _ => "<class 'dict'>"
  | PyNdarray _ => "<class 'numpy.ndarray'>"
  | PyInt _ => "<class 'int'>"
  | PyFloat _ => "<class 'float'>"
  | PyStr _ => "<class 'str'>"
  | PyBool _ => "<class 'bool'>"
  | PyNone => "<class 'NoneType'>"
  | NpScalar (SInt _) => "<class 'numpy.int64'>"
  | NpScalar (SFloat _) => "<class 'numpy.float64'>"
  | NpScalar (SStr _) => "<class 'numpy.str_'>"
  | NpScalar (SBool _) => "<class 'numpy.bool_'>"
  end.

(** [obj.copy()]: series, tables, lists, dicts, arrays and numpy scalars
    have the method, and the copy holds what the original holds; the
    other classes have no such attribute. *)
Definition copy (o : PyObj) : Exc PyObj :=
  match o with
  | PySeries _ | PyDataFrame _ | PyList _ | PyDict _ | PyNdarray _
  | NpScalar _ => Ok o
  | PyTuple _ | PyInt _ | PyFloat _ | PyStr _ | PyBool _ | PyNone =>
      Raise AttributeError
  end.

Definition has_copy (o : PyObj) : bool :=
  match copy o with
  | Ok _ => true
  | Raise _ => false
  end.

(** What indexing a cell out of a table gives: a numpy scalar for a
    number or a boolean, the Python string itself for a string (object
    columns hold Python objects). *)
Definition cell_obj (c : Scalar) : PyObj :=
  match c with
  | SStr s => PyStr s
  | _ => NpScalar c
  end.

(** The column of [j]-th cells. *)
Definition column_at (j : nat) (rows : list (list Scalar)) : list Scalar :=
  flat_map (fun r => match nth_error r j with
                     | Some c => [c]
                     | None => []
                     end) rows.

(** [df.squeeze()]: every axis of length one is dropped.  One column and
    one row leave the single cell; one column leaves that column as a
    series named after it; one row leaves that row as a series over the
    column labels; otherwise the table stays as it is. *)
Definition squeeze (df : DataFrame Scalar Scalar Scalar) : PyObj :=
  match columns df, index df with
  | [c], [_] =>
      match values df with
      | [[x]] => cell_obj x
      | _ => PyDataFrame df
      end
  | [c], _ => PySeries (mkGSeries (Some c) (index df) (column_at 0 (values df)))
  | _, [r] =>
      match values df with
      | [row] => PySeries (mkGSeries (Some r) (columns df) row)
      | _ => PyDataFrame df
      end
  | _, _ => PyDataFrame df
  end.

Inductive LogLevel : Type := INFO | WARNING.

Definition LogRecord : Type := (LogLevel * string)%type.

Definition squeeze_warning : string :=
  "Please convert series of type pandas.DataFrame to a" ++
  "pandas.Series using DataFrame.squeeze(). Now done automatically.".

(** [validate_series]: the log records it emits and its outcome. *)
Definition validate_series (series : PyObj) : list LogRecord * Exc PyObj :=
  match copy series with
  | Raise e => ([], Raise e)
  | Ok series =>
      match series with
      | PySeries _ => ([], Ok series)
      | PyDataFrame df =>
          if (List.length (columns df) =? 1)%nat then
            ([(WARNING, squeeze_warning)], Ok (squeeze df))
          else
            ([], Raise (TypeError
                   "Please provide a pandas.Series instead of a pandas.DataFrame"))
      | _ =>
          ([], Raise (TypeError
                 ("Please provide a Pandas Series instead of " ++
                  type_repr series)))
      end
  end.

(** *** Indexes *)

(** A pandas [Index] by dtype: 64-bit integers, booleans, objects
    (strings), or datetimes, where [None] is NaT.  The other dtypes (floats,
    periods, time deltas and so on) are left out. *)
Inductive Index : Type :=
| Int64Index (labels : list Z)
| BoolIndex (labels : list bool)
| ObjectIndex (labels : list string)
| DtIndex (labels : list (option Timestamp)).


Definition index_length (i : Index) : nat :=
  match i with
  | Int64Index l => List.length l
  | BoolIndex l => List.length l
  | ObjectIndex l => List.length l
  | DtIndex l => List.length l
  end.

Definition index_type_repr (i : Index) : string :=
  match i with
  | DtIndex _ => "<class 'pandas.core.indexes.datetimes.DatetimeIndex'>"
  | _ => "<class 'pandas.core.indexes.base.Index'>"
  end.

(** The calendar date of a day number counted from 1970-01-01. *)
Definition civil_from_days (days : Z) : Z * Z * Z :=
  let z := days + 719468 in
  let era := z / 146097 in
  let doe := z - era * 146097 in
  let yoe := (doe - doe / 1460 + doe / 36524 - doe / 146096) / 365 in
  let doy := doe - (365 * yoe + yoe / 4 - yoe / 100) in
  let mp := (5 * doy + 2) / 153 in
  let d := doy - (153 * mp + 2) / 5 + 1 in
  let m := if mp <? 10 then mp + 3 else mp - 9 in
  let y := yoe + era * 400 + (if m <=? 2 then 1 else 0) in
  (y, m, d).

(** An integer label is a count of nanoseconds from 1970-01-01 00:00:00;
    the least 64-bit integer stands for NaT. *)
Definition timestamp_of_ns (n : Z) : option Timestamp :=
  if n =? - 2 ^ 63 then None
  else
    let day_ns := 86400 * 1000000000 in
    let '(y, m, d) := civil_from_days (n / day_ns) in
    let r := n mod day_ns in
    let secs := r / 1000000000 in
    Some (mkTimestamp y m d (secs / 3600) ((secs / 60) mod 60) (secs mod 60)
                      (r mod 1000000000)).

Section ToDatetime.
(** pandas' parser of date strings.  Without a format, [to_datetime]
    guesses one from the first label and reads every label under it:
    [parse_date first s] is the label [s] read the way [first] sets, and
    it raises on a label that cannot be read that way.  It is a service
    of the library, not code of this module. *)
Variable parse_date : string -> string -> Exc (option Timestamp).

(** [to_datetime(index)] without a format.  Integers are counts of
    nanoseconds; the boolean dtype is refused with [TypeError], whatever
    the labels; strings go through the parser, label after label. *)
Definition to_datetime_index (i : Index) : Exc (list (option Timestamp)) :=
  match i with
  | Int64Index l => Ok (map timestamp_of_ns l)
  | BoolIndex _ =>
      Raise (TypeError "dtype bool cannot be converted to datetime64[ns]")
  | ObjectIndex l =>
      match l with
      | [] => Ok []
      | first :: _ => mapM (parse_date first) l
      end
  | DtIndex l => Ok l
  end.

Definition is_datetime_index (i : Index) : bool :=
  match i with
  | DtIndex _ => true
  | _ => false
  end.

Definition conversion_info (i : Index) : string :=
  "Expected the index to be a DatetimeIndex. Automatically converted " ++
  index_type_repr i ++ " using pd.to_datetime(Index)".

(** [validate_index]: every [Index] has [copy]. *)
Definition validate_index (index : Index) : list LogRecord * Exc Index :=
  if negb (is_datetime_index index) then
    ([(INFO, conversion_info index)],
     dt <- to_datetime_index index ;; Ok (DtIndex dt))
  else ([], Ok index).
End ToDatetime.

End Validate.

(** ** Goodness-of-fit tests *)

Module DistTest.

(** A continuous distribution of [scipy.stats], by what the module uses
    of it: its [name] and its [fit(data, scale=...)], which may raise. *)
Record ContinuousDist : Type := mkDist {
  name : string;
  fit : list float -> float -> Exc (list float)
}.

(** A cell of the comparison table. *)
Inductive Obj : Type :=
| OInt (z : Z)
| OStr (s : string)
| OFloat (f : float)
| OBool (b : bool)
| OTuple (items : list float)
| ODist (d : ContinuousDist)
| ONone.

(** A column label: a position, or a name. *)
Inductive Label : Type :=
| LPos (n : nat)
| LName (s : string).

Definition label_eqb (a b : Label) : bool :=
  match a, b with
  | LPos n, LPos m => Nat.eqb n m
  | LName s, LName t => String.eqb s t
  | _, _ => false
  end.

Definition Table : Type := DataFrame Obj Label Obj.

(** [DataFrame(rows)] on a list of tuples: one row per tuple under
    positional labels, a shorter tuple padded with [None]. *)
Definition frame_of_rows (rows : list (list Obj)) : Table :=
  let width := fold_right (fun r w => Nat.max (List.length r) w) 0%nat rows in
  mkFrame (map (fun i => OInt (Z.of_nat i)) (seq 0 (List.length rows)))
          (map LPos (seq 0 width))
          (map (fun r => (r ++ repeat ONone (width - List.length r))%list) rows).

(** [dict(zip(old, new))], looked up with the old label as default: the
    last pair of a key is the one a dict keeps. *)
Definition renamed (old new : list Label) (l : Label) : Label :=
  match find (fun p => label_eqb (fst p) l) (rev (combine old new)) with
  | Some p => snd p
  | None => l
  end.

(** [df.rename(columns=dict(zip(df.columns, cols)))] *)
Definition rename_columns (df : Table) (cols : list Label) : Table :=
  mkFrame (index df) (map (renamed (columns df) cols) (columns df)) (values df).

Fixpoint position (l : Label) (cols : list Label) : option nat :=
  match cols with
  | [] => None
  | c :: cols' =>
      if label_eqb c l then Some 0%nat
      else option_map S (position l cols')
  end.

Definition remove_at {A : Type} (j : nat) (l : list A) : list A :=
  (firstn j l ++ skipn (S j) l)%list.

(** [df.set_index(key)]: the column becomes the index and leaves the
    columns; [KeyError] when there is no such column. *)
Definition set_index (df : Table) (key : Label) : Exc Table :=
  match position key (columns df) with
  | None => Raise KeyError
  | Some j =>
      Ok (mkFrame (map (fun r => nth j r ONone) (values df))
                  (remove_at j (columns df))
                  (map (remove_at j) (values df)))
  end.

(** [df[key] = items] for a key that is not a column yet: a new last
    column; [ValueError] when the lengths differ. *)
Definition add_column (df : Table) (key : Label) (items : list Obj) : Exc Table :=
  if (List.length items =? List.length (index df))%nat then
    Ok (mkFrame (index df) (columns df ++ [key])%list
                (map (fun p => (fst p ++ [snd p])%list) (combine (values df) items)))
  else Raise ValueError.

(** [df[key]] *)
Definition get_column (df : Table) (key : Label) : option (list Obj) :=
  match position key (columns df) with
  | None => None
  | Some j => Some (map (fun r => nth j r ONone) (values df))
  end.

Definition default_N : Z := 100.
(** 0.05, as the nearest binary64 number *)
Definition default_alpha : float := 0x1.999999999999ap-5%float.

Section Scipy.
(** [numpy.std] *)
Variable std : list float -> float.

(** [scipy.stats.kstest(data, name, args, N=N)]: the statistic and the
    p-value, unless it raises. *)
Variable kstest : list float -> string -> list float -> Z -> Exc (float * float).

(** The fitting routine of the named family. *)
Variable scipy_fit : string -> list float -> float -> Exc (list float).

Definition norm : ContinuousDist := mkDist "norm" (scipy_fit "norm").
Definition gamma : ContinuousDist := mkDist "gamma" (scipy_fit "gamma").
Definition genextreme : ContinuousDist :=
  mkDist "genextreme" (scipy_fit "genextreme").
Definition pearson3 : ContinuousDist := mkDist "pearson3" (scipy_fit "pearson3").
Definition fisk : ContinuousDist := mkDist "fisk" (scipy_fit "fisk").
Definition lognorm : ContinuousDist := mkDist "lognorm" (scipy_fit "lognorm").
Definition logistic : ContinuousDist := mkDist "logistic" (scipy_fit "logistic").
Definition genlogistic : ContinuousDist :=
  mkDist "genlogistic" (scipy_fit "genlogistic").

Definition FitResult : Type := (string * float * bool * list float)%type.

Definition dist_test (series : list float) (dist : ContinuousDist)
                     (N : Z) (alpha : float) : Exc FitResult :=
  fitted <- fit dist series (std series) ;;
  let dist_name := name dist in
  r <- kstest series dist_name fitted N ;;
  let ks := snd r in
  let rej_h0 := (ks <? alpha)%float in
  Ok (dist_name, ks, rej_h0, fitted).

(** The tuple [dist_test] returns, as a row of cells: the fitted
    parameters are one cell, a tuple. *)
Definition row_of (r : FitResult) : list Obj :=
  let '(dist_name, ks, rej_h0, fitted) := r in
  [OStr dist_name; OFloat ks; OBool rej_h0; OTuple fitted].

Definition default_distributions : list ContinuousDist :=
  [norm; gamma; genextreme; pearson3; fisk; lognorm; logistic; genlogistic].

Definition dists_test (series : list float)
                      (distributions : option (list ContinuousDist))
                      (N : Z) (alpha : float) : Exc Table :=
  let distributions :=
    match distributions with
    | None => default_distributions
    | Some l => l
    end in
  results <- mapM (fun D => dist_test series D N alpha) distributions ;;
  let df := frame_of_rows (map row_of results) in
  let cols := [LName "Distribution"; LName "KS p-value"; LName "Reject H0"] in
  let cols :=
    (cols ++ map (fun i => LName ("Param " ++ PyStr.format_int (Z.of_nat i + 1)))
                 (seq 0 (List.length (columns df) - List.length cols)))%list in
  df <- set_index (rename_columns df cols) (nth 0 cols (LName "")) ;;
  add_column df (LName "Dist") (map ODist distributions).
End Scipy.

End DistTest.

(** * Properties *)

Unset Implicit Arguments.

(** ** Input validation *)

Section ValidateFacts.
Import Validate.

Lemma validate_series_series (s : GSeries) :
  validate_series (PySeries s) = ([], Ok (PySeries s)).
Proof. reflexivity. Qed.

(** A table with no column or with several is refused. *)
Lemma validate_series_wide_table (df : DataFrame Scalar Scalar Scalar) :
  List.length (columns df) <> 1%nat ->
  validate_series (PyDataFrame df) =
    ([], Raise (TypeError
           "Please provide a pandas.Series instead of a pandas.DataFrame")).
Proof.
  intros H. unfold validate_series. simpl.
  destruct (Nat.eqb_spec (List.length (columns df)) 1); [contradiction | reflexivity].
Qed.

(** An object with a [copy] method that is neither a series nor a table
    is refused. *)
Lemma validate_series_other_with_copy (o : PyObj) :
  has_copy o = true ->
  (forall s, o <> PySeries s) -> (forall df, o <> PyDataFrame df) ->
  exists msg, validate_series o = ([], Raise (TypeError msg)).
Proof.
  intros Hc Hs Hd.
  destruct o; try discriminate Hc;
    try (eexists; reflexivity).
  - exfalso. eapply Hs. reflexivity.
  - exfalso. eapply Hd. reflexivity.
Qed.

Example validate_series_list :
  validate_series (PyList [SInt 1; SInt 2; SInt 3]) =
    ([], Raise (TypeError
           "Please provide a Pandas Series instead of <class 'list'>")).
Proof. reflexivity. Qed.

Example validate_series_two_columns :
  snd (validate_series
         (PyDataFrame
            (mkFrame [SInt 0; SInt 1; SInt 2] [SStr "s1"; SStr "s2"]
                     [[SInt 1; SInt 1]; [SInt 2; SInt 2]; [SInt 3; SInt 3]]))) =
    Raise (TypeError
             "Please provide a pandas.Series instead of a pandas.DataFrame").
Proof. reflexivity. Qed.

(** C6, at an input without [copy]: the integer 5 is neither a series
    nor a table, and the call ends in [AttributeError], not in the
    [TypeError] of the last branch. *)
Theorem validate_series_int_attribute_error :
  validate_series (PyInt 5) = ([], Raise AttributeError) /\
  (forall msg, snd (validate_series (PyInt 5)) <> Raise (TypeError msg)).
Proof.
  split; [reflexivity | intros msg; simpl; discriminate].
Qed.

(** C9: [validate_series] calls [copy] on its argument before it looks
    at the argument's class, so an object without a [copy] method
    raises [AttributeError] and nothing is logged. *)
Theorem validate_series_without_copy (o : PyObj) :
  has_copy o = false ->
  validate_series o = ([], Raise AttributeError).
Proof.
  unfold has_copy, validate_series.
  destruct o; simpl; intros H; try discriminate H; reflexivity.
Qed.

Lemma validate_series_without_copy_witness :
  has_copy (PyInt 7) = false /\
  has_copy (PyTuple [SInt 1; SInt 2]) = false /\
  validate_series (PyInt 7) = ([], Raise AttributeError) /\
  validate_series (PyTuple [SInt 1; SInt 2]) = ([], Raise AttributeError).
Proof.
  split; [reflexivity |]. split; [reflexivity |]. split.
  - apply (validate_series_without_copy (PyInt 7)). reflexivity.
  - apply (validate_series_without_copy (PyTuple [SInt 1; SInt 2])). reflexivity.
Defined.

(** What [squeeze] leaves of a one-column table that does not have
    exactly one row: a series. *)
Lemma squeeze_one_column (df : DataFrame Scalar Scalar Scalar) :
  List.length (columns df) = 1%nat ->
  List.length (index df) <> 1%nat ->
  exists s, squeeze df = PySeries s.
Proof.
  intros Hc Hr. unfold squeeze.
  destruct (columns df) as [| c [| c' cs]]; try discriminate Hc.
  destruct (index df) as [| r [| r' rs]].
  - eexists; reflexivity.
  - exfalso. apply Hr. reflexivity.
  - eexists; reflexivity.
Qed.

(** C7, amended: for a one-column table [T] that does not have exactly
    one row, [validate_series(T)] returns what
    [validate_series(T.squeeze())] returns, the squeezed series, and
    the call on [T] logs the conversion warning. *)
Theorem validate_series_one_column (df : DataFrame Scalar Scalar Scalar) :
  List.length (columns df) = 1%nat ->
  List.length (index df) <> 1%nat ->
  snd (validate_series (PyDataFrame df)) = snd (validate_series (squeeze df)) /\
  snd (validate_series (PyDataFrame df)) = Ok (squeeze df) /\
  fst (validate_series (PyDataFrame df)) = [(WARNING, squeeze_warning)].
Proof.
  intros Hc Hr.
  destruct (squeeze_one_column df Hc Hr) as [s Hs].
  unfold validate_series at 1 3 4. simpl.
  rewrite Hc. simpl. rewrite Hs. simpl. repeat split; reflexivity.
Qed.

Definition table_1d : DataFrame Scalar Scalar Scalar :=
  mkFrame [SInt 1; SInt 2; SInt 3] [SStr "s"] [[SInt 1]; [SInt 2]; [SInt 3]].

Lemma validate_series_one_column_witness :
  snd (validate_series (PyDataFrame table_1d)) =
    Ok (PySeries (mkGSeries (Some (SStr "s")) [SInt 1; SInt 2; SInt 3]
                            [SInt 1; SInt 2; SInt 3])) /\
  fst (validate_series (PyDataFrame table_1d)) = [(WARNING, squeeze_warning)].
Proof.
  assert (Hc : List.length (columns table_1d) = 1%nat) by reflexivity.
  assert (Hr : List.length (index table_1d) <> 1%nat) by (simpl; lia).
  destruct (validate_series_one_column table_1d Hc Hr) as [_ [H2 H3]].
  split; [exact H2 | exact H3].
Defined.

Definition table_1x1 : DataFrame Scalar Scalar Scalar :=
  mkFrame [SInt 0] [SStr "s"] [[SInt 1]].

(** C7 as stated fails on a table of one column and one row: squeezing
    leaves the cell, a scalar, which the call on the table returns and
    the call on the squeezed value refuses. *)
Lemma validate_series_one_cell_differs :
  List.length (columns table_1x1) = 1%nat /\
  snd (validate_series (PyDataFrame table_1x1)) = Ok (NpScalar (SInt 1)) /\
  snd (validate_series (squeeze table_1x1)) =
    Raise (TypeError
             "Please provide a Pandas Series instead of <class 'numpy.int64'>") /\
  snd (validate_series (PyDataFrame table_1x1)) <>
    snd (validate_series (squeeze table_1x1)).
Proof.
  repeat split; try reflexivity. simpl. discriminate.
Qed.
End ValidateFacts.

Section ValidateIndexFacts.
Import Validate.

Variable parse_date : string -> string -> Exc (option Timestamp).

Lemma mapM_length {A B : Type} (f : A -> Exc B) (l : list A) (r : list B) :
  mapM f l = Ok r -> List.length r = List.length l.
Proof.
  revert r. induction l as [| a l IH]; simpl; intros r H.
  - injection H as <-. reflexivity.
  - destruct (f a) as [b |]; simpl in H; [| discriminate].
    destruct (mapM f l) as [bs |]; simpl in H; [| discriminate].
    injection H as <-. simpl. f_equal. apply IH. reflexivity.
Qed.

Lemma to_datetime_index_length (i : Index) (dt : list (option Timestamp)) :
  to_datetime_index parse_date i = Ok dt -> List.length dt = index_length i.
Proof.
  destruct i as [l | l | l | l]; cbn [to_datetime_index index_length];
    intros H.
  - injection H as <-. apply length_map.
  - discriminate H.
  - destruct l as [| first l']; [injection H as <-; reflexivity |].
    eapply mapM_length; eassumption.
  - injection H as <-. reflexivity.
Qed.

(** An index of integers always converts. *)
Lemma validate_index_int64 (l : list Z) :
  validate_index parse_date (Int64Index l) =
    ([(INFO, conversion_info (Int64Index l))],
     Ok (DtIndex (map timestamp_of_ns l))).
Proof. reflexivity. Qed.

(** An index that is datetime-typed already comes back as it is, and
    nothing is logged. *)
Lemma validate_index_datetime (l : list (option Timestamp)) :
  validate_index parse_date (DtIndex l) = ([], Ok (DtIndex l)).
Proof. reflexivity. Qed.

(** The parser's exception goes to the caller, after the message. *)
Lemma validate_index_raises (i : Index) (e : PyExn) :
  is_datetime_index i = false ->
  to_datetime_index parse_date i = Raise e ->
  validate_index parse_date i = ([(INFO, conversion_info i)], Raise e).
Proof.
  intros Hi He. unfold validate_index. rewrite Hi, He. reflexivity.
Qed.

End ValidateIndexFacts.

(** A parser that reads no string at all: the index [1, 2, 3] coerces to
    the first three nanoseconds of 1970 all the same. *)
Definition no_parse (first s : string) : Exc (option Timestamp) :=
  Raise ValueError.


(** ** Goodness-of-fit tests *)

Section DistTestFacts.
Import DistTest.

Variable std : list float -> float.
Variable kstest : list float -> string -> list float -> Z -> Exc (float * float).
Variable scipy_fit : string -> list float -> float -> Exc (list float).

(** Whatever [fit] or [kstest] raises goes to the caller. *)
Lemma dist_test_fit_raises series dist N alpha e :
  fit dist series (std series) = Raise e ->
  dist_test std kstest series dist N alpha = Raise e.
Proof. intros H. unfold dist_test. rewrite H. reflexivity. Qed.

Lemma dist_test_kstest_raises series dist N alpha fitted e :
  fit dist series (std series) = Ok fitted ->
  kstest series (name dist) fitted N = Raise e ->
  dist_test std kstest series dist N alpha = Raise e.
Proof. intros H1 H2. unfold dist_test. rewrite H1. simpl. rewrite H2. reflexivity. Qed.

(** What a returned tuple holds. *)
Lemma dist_test_inv series dist N alpha r :
  dist_test std kstest series dist N alpha = Ok r ->
  exists fitted stat p,
    fit dist series (std series) = Ok fitted /\
    kstest series (name dist) fitted N = Ok (stat, p) /\
    r = (name dist, p, (p <? alpha)%float, fitted).
Proof.
  unfold dist_test. intros H.
  destruct (fit dist series (std series)) as [fitted |]; simpl in H; [| discriminate].
  destruct (kstest series (name dist) fitted N) as [[stat p] |] eqn:Hk;
    simpl in H; [| discriminate].
  injection H as <-. exists fitted, stat, p. repeat split; assumption.
Qed.

Lemma SFeqb_refl_not_nan (x : SpecFloat.spec_float) :
  SpecFloat.SFeqb x x = false -> x = SpecFloat.S754_nan.
Proof.
  destruct x as [sg | sg | | sg m ex]; try reflexivity;
    unfold SpecFloat.SFeqb, SpecFloat.SFcompare; intros H.
  - discriminate H.
  - destruct sg; discriminate H.
  - rewrite Z.compare_refl in H.
    destruct sg; rewrite ?Pos.compare_cont_refl in H; discriminate H.
Qed.

(** A comparison with NaN is false. *)
Lemma ltb_nan (p a : float) :
  PrimFloat.is_nan p = true \/ PrimFloat.is_nan a = true -> (p <? a)%float = false.
Proof.
  unfold PrimFloat.is_nan. rewrite !negb_true_iff, !FloatAxioms.eqb_spec.
  rewrite FloatAxioms.ltb_spec. intros [H | H]; apply SFeqb_refl_not_nan in H;
    rewrite H; unfold SpecFloat.SFltb, SpecFloat.SFcompare.
  - reflexivity.
  - destruct (Prim2SF p) as [sg | sg | | sg m ex]; reflexivity.
Qed.

(** C3: when the fit and the test go through, [dist_test] returns the
    distribution's name, the p-value as the test gave it, the flag
    [p-value < alpha] and the fitted parameters.  The flag is the
    comparison of the two floats: a p-value that is not a number is
    handed on as it is and rejects nothing.  For [norm] under the default
    [alpha] the name is "norm" and the flag is [p-value < 0.05]. *)
Theorem dist_test_decision series dist N alpha fitted stat p :
  fit dist series (std series) = Ok fitted ->
  kstest series (name dist) fitted N = Ok (stat, p) ->
  dist_test std kstest series dist N alpha =
    Ok (name dist, p, (p <? alpha)%float, fitted) /\
  (PrimFloat.is_nan p = true ->
   dist_test std kstest series dist N alpha = Ok (name dist, p, false, fitted)) /\
  (dist = norm scipy_fit -> alpha = default_alpha ->
   dist_test std kstest series dist N alpha =
     Ok ("norm", p, (p <? 0x1.999999999999ap-5)%float, fitted)).
Proof.
  intros Hfit Hks.
  assert (Hrun : dist_test std kstest series dist N alpha =
                 Ok (name dist, p, (p <? alpha)%float, fitted)).
  { unfold dist_test. rewrite Hfit. simpl. rewrite Hks. reflexivity. }
  split; [exact Hrun |]. split.
  - intros Hnan. rewrite Hrun, (ltb_nan p alpha (or_introl Hnan)). reflexivity.
  - intros -> ->. exact Hrun.
Qed.
End DistTestFacts.

(** Stand-ins for the library, to run the model on: the deviation is 1,
    the normal family fits two parameters and the others three, and the
    test answers with the p-value one half. *)
Definition std_one (series : list float) : float := 1%float.

Definition kstest_half (series : list float) (nm : string) (args : list float)
                       (N : Z) : Exc (float * float) :=
  Ok (0.25%float, 0.5%float).

Definition fit_by_family (nm : string) (series : list float) (scale : float)
  : Exc (list float) :=
  if String.eqb nm "norm" then Ok [0%float; scale]
  else Ok [2%float; 0%float; scale].

(** A test that cannot tell: on a sample without spread scipy's
    [kstest] answers NaN for the statistic and for the p-value. *)
Definition kstest_nan (series : list float) (nm : string) (args : list float)
                      (N : Z) : Exc (float * float) :=
  Ok (PrimFloat.nan, PrimFloat.nan).

Lemma dist_test_decision_witness :
  DistTest.dist_test std_one kstest_half [1%float; 2%float; 4%float]
                     (DistTest.norm fit_by_family)
                     DistTest.default_N DistTest.default_alpha =
    Ok ("norm", 0.5%float, false, [0%float; 1%float]).
Proof.
  destruct (dist_test_decision std_one kstest_half fit_by_family
              [1%float; 2%float; 4%float]
              (DistTest.norm fit_by_family)
              DistTest.default_N DistTest.default_alpha
              [0%float; 1%float] 0.25%float 0.5%float eq_refl eq_refl)
    as [H _].
  exact H.
Defined.

(** C3 as stated fails where the test answers NaN: the second element of
    the tuple is then no number in [0,1]. *)
Lemma dist_test_pvalue_not_in_unit_interval :
  exists p,
    DistTest.dist_test (fun _ => 0%float) kstest_nan
                       [1%float; 1%float; 1%float]
                       (DistTest.norm fit_by_family)
                       DistTest.default_N DistTest.default_alpha =
      Ok ("norm", p, false, [0%float; 0%float]) /\
    ((0 <=? p)%float && (p <=? 1)%float) = false.
Proof. exists PrimFloat.nan. split; reflexivity. Qed.

Section DistsTestFacts.
Import DistTest.

Variable std : list float -> float.
Variable kstest : list float -> string -> list float -> Z -> Exc (float * float).
Variable scipy_fit : string -> list float -> float -> Exc (list float).

Lemma row_of_length (r : FitResult) : List.length (row_of r) = 4%nat.
Proof. destruct r as [[[nm ks] rej] fitted]. reflexivity. Qed.

Lemma rows_width (rows : list (list Obj)) :
  rows <> [] ->
  Forall (fun r => List.length r = 4%nat) rows ->
  fold_right (fun r w => Nat.max (List.length r) w) 0%nat rows = 4%nat.
Proof.
  intros Hne Hall. induction Hall as [| r rows Hr Hall IH].
  - contradiction.
  - simpl. rewrite Hr. destruct rows as [| r' rows'].
    + reflexivity.
    + rewrite IH by discriminate. reflexivity.
Qed.

Lemma rows_unpadded (rows : list (list Obj)) :
  Forall (fun r => List.length r = 4%nat) rows ->
  map (fun r => (r ++ repeat ONone (4 - List.length r))%list) rows = rows.
Proof.
  intros Hall. induction Hall as [| r rows Hr Hall IH]; cbn [map].
  - reflexivity.
  - rewrite Hr, IH. simpl. rewrite app_nil_r. reflexivity.
Qed.

(** The frame built from the result tuples: four positional columns, the
    fourth holding the parameter tuples. *)
Lemma frame_of_results (results : list FitResult) :
  results <> [] ->
  frame_of_rows (map row_of results) =
    mkFrame (map (fun i => OInt (Z.of_nat i)) (seq 0 (List.length results)))
            [LPos 0; LPos 1; LPos 2; LPos 3]
            (map row_of results).
Proof.
  intros Hne. unfold frame_of_rows.
  assert (Hall : Forall (fun r => List.length r = 4%nat) (map row_of results)).
  { apply Forall_forall. intros r Hr. apply in_map_iff in Hr.
    destruct Hr as [x [<- _]]. apply row_of_length. }
  rewrite rows_width; [| destruct results; [contradiction | discriminate] | exact Hall].
  rewrite rows_unpadded by exact Hall.
  rewrite length_map. reflexivity.
Qed.

(** The table as the code leaves it. *)
Definition table_of (results : list FitResult) (ds : list ContinuousDist) : Table :=
  mkFrame (map (fun r => OStr (fst (fst (fst r)))) results)
          [LName "KS p-value"; LName "Reject H0"; LName "Param 1"; LName "Dist"]
          (map (fun p =>
                  let '(_, ks, rej_h0, fitted) := fst p in
                  [OFloat ks; OBool rej_h0; OTuple fitted; ODist (snd p)])
               (combine results ds)).

Lemma combine_rows (results : list FitResult) (ds : list ContinuousDist) :
  List.length results = List.length ds ->
  map (fun p => (fst p ++ [snd p])%list)
      (combine (map (remove_at 0) (map row_of results)) (map ODist ds)) =
  map (fun p =>
         let '(_, ks, rej_h0, fitted) := fst p in
         [OFloat ks; OBool rej_h0; OTuple fitted; ODist (snd p)])
      (combine results ds).
Proof.
  revert ds. induction results as [| r results IH]; intros [| d ds] Hlen;
    try discriminate Hlen.
  - reflexivity.
  - cbn [map combine]. rewrite IH by (simpl in Hlen; lia).
    destruct r as [[[nm ks] rej] fitted]. reflexivity.
Qed.

Lemma dists_test_table series (ds : list ContinuousDist) N alpha results :
  ds <> [] ->
  mapM (fun D => dist_test std kstest series D N alpha) ds = Ok results ->
  dists_test std kstest scipy_fit series (Some ds) N alpha =
    Ok (table_of results ds).
Proof.
  intros Hne Hm. unfold dists_test. rewrite Hm. cbn [bind].
  pose proof (mapM_length _ _ _ Hm) as Hlen.
  assert (Hres : results <> []).
  { intros ->. destruct ds; [contradiction | discriminate Hlen]. }
  rewrite (frame_of_results results Hres).
  unfold rename_columns, set_index, add_column. simpl.
  rewrite !length_map, Hlen, Nat.eqb_refl.
  unfold table_of. rewrite (combine_rows results ds Hlen).
  assert (Hidx : map (fun r : list Obj => nth 0 r ONone) (map row_of results) =
                 map (fun r : FitResult => OStr (fst (fst (fst r)))) results).
  { rewrite map_map. apply map_ext. intros [[[nm ks] rej] fitted]. reflexivity. }
  rewrite Hidx. reflexivity.
Qed.


Lemma mapM_pointwise {A B : Type} (f : A -> Exc B) (l : list A) (r : list B) :
  mapM f l = Ok r -> Forall2 (fun a b => f a = Ok b) l r.
Proof.
  revert r. induction l as [| a l IH]; simpl; intros r H.
  - injection H as <-. constructor.
  - destruct (f a) as [b |] eqn:Hb; simpl in H; [| discriminate].
    destruct (mapM f l) as [bs |]; simpl in H; [| discriminate].
    injection H as <-. constructor; [exact Hb | apply IH; reflexivity].
Qed.

Lemma result_names series N alpha (ds : list ContinuousDist) results :
  mapM (fun D => dist_test std kstest series D N alpha) ds = Ok results ->
  map (fun r => OStr (fst (fst (fst r)))) results = map (fun D => OStr (name D)) ds.
Proof.
  intros Hm. apply mapM_pointwise in Hm.
  induction Hm as [| D r ds results Hr _ IH]; simpl.
  - reflexivity.
  - apply dist_test_inv in Hr. destruct Hr as [fitted [stat [p [_ [_ ->]]]]].
    simpl. f_equal. exact IH.
Qed.

End DistsTestFacts.


Section ParameterColumns.
Import DistTest.

Variable std : list float -> float.
Variable kstest : list float -> string -> list float -> Z -> Exc (float * float).
Variable scipy_fit : string -> list float -> float -> Exc (list float).

(** C5, what the code builds: whatever the candidates' parameter counts,
    the table has one parameter column, "Param 1", whose cells are the
    fitted tuples whole; there is no "Param 2". *)
Theorem dists_test_one_parameter_column series ds N alpha results :
  ds <> [] ->
  mapM (fun D => dist_test std kstest series D N alpha) ds = Ok results ->
  exists df,
    dists_test std kstest scipy_fit series (Some ds) N alpha = Ok df /\
    columns df =
      [LName "KS p-value"; LName "Reject H0"; LName "Param 1"; LName "Dist"] /\
    get_column df (LName "Param 1") = Some (map (fun r => OTuple (snd r)) results) /\
    get_column df (LName "Param 2") = None.
Proof.
  intros Hne Hm.
  exists (table_of results ds). split.
  - apply dists_test_table; assumption.
  - split; [reflexivity |]. split; [| reflexivity].
    unfold get_column. simpl. f_equal.
    pose proof (mapM_length _ _ _ Hm) as Hlen. clear Hm Hne.
    revert ds Hlen. induction results as [| r results IH]; intros [| d ds] Hlen;
      try discriminate Hlen.
    + reflexivity.
    + cbn [combine map]. rewrite IH by (simpl in Hlen; lia).
      destruct r as [[[nm ks] rej] fitted]. reflexivity.
Qed.
End ParameterColumns.

(** The normal family (two parameters) next to the gamma family (three):
    one parameter column of tuples, not three columns with a gap. *)
Lemma dists_test_one_parameter_column_witness :
  exists df,
    DistTest.dists_test std_one kstest_half fit_by_family
                        [1%float; 2%float; 4%float]
                        (Some [DistTest.norm fit_by_family;
                               DistTest.gamma fit_by_family])
                        DistTest.default_N DistTest.default_alpha = Ok df /\
    columns df =
      [DistTest.LName "KS p-value"; DistTest.LName "Reject H0";
       DistTest.LName "Param 1"; DistTest.LName "Dist"] /\
    DistTest.get_column df (DistTest.LName "Param 1") =
      Some [DistTest.OTuple [0%float; 1%float];
            DistTest.OTuple [2%float; 0%float; 1%float]] /\
    DistTest.get_column df (DistTest.LName "Param 2") = None.
Proof.
  apply (dists_test_one_parameter_column std_one kstest_half fit_by_family
           [1%float; 2%float; 4%float]
           [DistTest.norm fit_by_family; DistTest.gamma fit_by_family]
           DistTest.default_N DistTest.default_alpha
           [("norm", 0.5%float, false, [0%float; 1%float]);
            ("gamma", 0.5%float, false, [2%float; 0%float; 1%float])]).
  - discriminate.
  - reflexivity.
Defined.

(** ** Strings of dates *)

Section StringFacts.

Fixpoint contains (c : ascii) (s : string) : bool :=
  match s with
  | EmptyString => false
  | String a s' => Ascii.eqb a c || contains c s'
  end.

Lemma append_assoc (a b c : string) : ((a ++ b) ++ c = a ++ (b ++ c))%string.
Proof. induction a as [| x a IH]; simpl; [reflexivity | rewrite IH; reflexivity]. Qed.

Lemma contains_append (c : ascii) (a b : string) :
  contains c (a ++ b) = contains c a || contains c b.
Proof.
  induction a as [| x a IH]; simpl; [reflexivity |].
  rewrite IH. apply orb_assoc.
Qed.

Lemma split_nonempty (sep : ascii) (s : string) : PyStr.split sep s <> [].
Proof.
  induction s as [| c s IH]; simpl; [discriminate |].
  destruct (Ascii.eqb c sep); [discriminate |].
  destruct (PyStr.split sep s); [contradiction | discriminate].
Qed.

(** Splitting cuts at the first separator. *)
Lemma split_append (sep : ascii) (a b : string) :
  contains sep a = false ->
  PyStr.split sep (a ++ String sep b) = a :: PyStr.split sep b.
Proof.
  induction a as [| c a IH]; simpl; intros H.
  - rewrite Ascii.eqb_refl. reflexivity.
  - apply orb_false_elim in H. destruct H as [Hc Ha].
    rewrite Hc, (IH Ha). reflexivity.
Qed.

Lemma split1_append (sep : ascii) (a b : string) :
  contains sep a = false ->
  PyStr.split1 sep (a ++ String sep b) = [a; b].
Proof.
  induction a as [| c a IH]; simpl; intros H.
  - rewrite Ascii.eqb_refl. reflexivity.
  - apply orb_false_elim in H. destruct H as [Hc Ha].
    rewrite Hc, (IH Ha). reflexivity.
Qed.

Lemma digit_cases (d : Z) :
  0 <= d <= 9 ->
  d = 0 \/ d = 1 \/ d = 2 \/ d = 3 \/ d = 4 \/ d = 5 \/ d = 6 \/ d = 7 \/
  d = 8 \/ d = 9.
Proof. lia. Qed.

Ltac each_digit d H :=
  destruct (digit_cases d H) as
    [-> | [-> | [-> | [-> | [-> | [-> | [-> | [-> | [-> | ->]]]]]]]]].

Lemma digit_val_digit_char (d : Z) :
  0 <= d <= 9 -> PyStr.digit_val (PyStr.digit_char d) = Some d.
Proof. intros H. each_digit d H; reflexivity. Qed.

Lemma is_digit_digit_char (d : Z) :
  0 <= d <= 9 -> PyStr.is_digit (PyStr.digit_char d) = true.
Proof. intros H. each_digit d H; reflexivity. Qed.

Lemma is_digit_not_sep (c : ascii) :
  PyStr.is_digit c = true ->
  Ascii.eqb c "-" = false /\ Ascii.eqb c " " = false.
Proof.
  intros H. split; apply Ascii.eqb_neq; intros ->; discriminate H.
Qed.

Lemma all_digits_no_sep (s : string) :
  PyStr.all_digits s = true ->
  contains "-" s = false /\ contains " " s = false.
Proof.
  induction s as [| c s IH]; simpl; intros H; [split; reflexivity |].
  apply andb_prop in H. destruct H as [Hc Hs].
  destruct (is_digit_not_sep c Hc) as [-> ->].
  destruct (IH Hs) as [-> ->]. split; reflexivity.
Qed.

Lemma field_range (n : Z) : 0 <= n < 100 -> 0 <= n / 10 <= 9 /\ 0 <= n mod 10 <= 9.
Proof.
  intros H. split.
  - split; [apply Z.div_pos; lia |].
    assert (n / 10 < 10) by (apply Z.div_lt_upper_bound; lia). lia.
  - pose proof (Z.mod_pos_bound n 10). lia.
Qed.

Lemma all_digits_pad2 (n : Z) :
  0 <= n < 100 -> PyStr.all_digits (PyStr.pad2 n) = true.
Proof.
  intros H. destruct (field_range n H) as [Hq Hr].
  unfold PyStr.pad2. cbn [PyStr.all_digits].
  rewrite (is_digit_digit_char _ Hq), (is_digit_digit_char _ Hr). reflexivity.
Qed.

(** Two padded digits read back as the number. *)
Lemma digits2_pad2 (n : Z) (rest : string) :
  0 <= n < 100 -> Parse.digits2 (PyStr.pad2 n ++ rest) = Some (n, rest).
Proof.
  intros H. destruct (field_range n H) as [Hq Hr].
  unfold PyStr.pad2, Parse.digits2. cbn [append].
  rewrite (digit_val_digit_char _ Hq), (digit_val_digit_char _ Hr).
  do 2 f_equal. pose proof (Z.div_mod n 10). lia.
Qed.

Lemma pad2_inj (n m : Z) (r s : string) :
  0 <= n < 100 -> 0 <= m < 100 ->
  (PyStr.pad2 n ++ r = PyStr.pad2 m ++ s)%string -> n = m /\ r = s.
Proof.
  intros Hn Hm E.
  pose proof (digits2_pad2 n r Hn) as H1. rewrite E in H1.
  rewrite (digits2_pad2 m s Hm) in H1. injection H1 as -> ->. split; reflexivity.
Qed.

Lemma all_digits_string_of_uint (u : Decimal.uint) :
  PyStr.all_digits (NilEmpty.string_of_uint u) = true.
Proof. induction u; simpl; auto. Qed.

(** What [format_int] prints for a number that is not negative. *)
Lemma format_int_nonneg (c : Z) :
  0 <= c ->
  exists u, u <> Decimal.Nil /\ Z.of_uint u = c /\
            PyStr.format_int c = NilEmpty.string_of_uint u.
Proof.
  intros Hc. unfold PyStr.format_int.
  pose proof (DecimalZ.of_to c) as Hoi.
  destruct c as [| p | p]; [| | lia].
  - exists (Decimal.D0 Decimal.Nil). repeat split. discriminate.
  - simpl in *. exists (Pos.to_uint p).
    pose proof (DecimalPos.Unsigned.to_uint_nonnil p) as Hnn.
    repeat split; [exact Hnn | exact Hoi |].
    unfold NilZero.string_of_uint. destruct (Pos.to_uint p); [contradiction | reflexivity ..].
Qed.

Lemma all_digits_format_int (c : Z) :
  0 <= c -> PyStr.all_digits (PyStr.format_int c) = true.
Proof.
  intros Hc. destruct (format_int_nonneg c Hc) as [u [_ [_ ->]]].
  apply all_digits_string_of_uint.
Qed.

(** [int] reads back what [format_int] printed. *)
Lemma int_format_int (c : Z) : 0 <= c -> PyStr.int (PyStr.format_int c) = Ok c.
Proof.
  intros Hc. destruct (format_int_nonneg c Hc) as [u [Hnn [Hu E]]].
  unfold PyStr.int. rewrite E.
  rewrite all_digits_string_of_uint, NilEmpty.usu, Hu.
  destruct u; [contradiction | reflexivity ..].
Qed.
End StringFacts.

(** ** Date strings, field by field *)

(** The row label [t] read under the year [c]: the timestamp that
    [to_datetime] builds from [f"{c}-" + strftime(t)].  Fractions of a
    second are not printed, so they are gone. *)
Definition in_year (c : Z) (t : Timestamp) : Timestamp :=
  mkTimestamp c (month t) (day t) (hour t) (minute t) (second t) 0.

Definition is_feb29 (t : Timestamp) : bool := (month t =? 2) && (day t =? 29).

Section DateStringFacts.

Lemma valid_fields_ranges (t : Timestamp) :
  valid_fields t = true ->
  0 <= month t < 100 /\ 0 <= day t < 100 /\ 0 <= hour t < 100 /\
  0 <= minute t < 100 /\ 0 <= second t < 100.
Proof.
  unfold valid_fields, days_in_month. intros H.
  repeat (apply andb_prop in H; destruct H as [H ?]).
  destruct (month t =? 2); destruct (isleap (year t));
    destruct ((month t =? 4) || (month t =? 6) || (month t =? 9) || (month t =? 11));
    lia.
Qed.

Lemma contains_pad2 (n : Z) :
  0 <= n < 100 ->
  contains "-" (PyStr.pad2 n) = false /\ contains " " (PyStr.pad2 n) = false.
Proof. intros H. apply all_digits_no_sep, all_digits_pad2, H. Qed.

(** The month-and-day field against the literal "02-29". *)
Lemma month_day_eqb (m d : Z) :
  0 <= m < 100 -> 0 <= d < 100 ->
  String.eqb (PyStr.pad2 m ++ "-" ++ PyStr.pad2 d) "02-29" = (m =? 2) && (d =? 29).
Proof.
  intros Hm Hd.
  destruct (String.eqb_spec (PyStr.pad2 m ++ "-" ++ PyStr.pad2 d) "02-29") as [E | E].
  - change "02-29"%string with (PyStr.pad2 2 ++ "-" ++ PyStr.pad2 29)%string in E.
    apply pad2_inj in E; [| lia | lia]. destruct E as [-> E].
    assert (E' : (PyStr.pad2 d ++ "")%string = (PyStr.pad2 29 ++ "")%string).
    { unfold PyStr.pad2 in *. cbn [append] in *. injection E as E1 E2.
      rewrite E1, E2. reflexivity. }
    apply pad2_inj in E'; [| lia | lia]. destruct E' as [-> _]. reflexivity.
  - symmetry. apply not_true_is_false. intros H. apply E.
    apply andb_prop in H. destruct H as [H1 H2].
    apply Z.eqb_eq in H1, H2. subst. reflexivity.
Qed.

(** The date part of the string built for column [c] and row [t]. *)
Definition date_part (c : Z) (t : Timestamp) : string :=
  PyStr.format_int c ++ "-" ++ PyStr.pad2 (month t) ++ "-" ++ PyStr.pad2 (day t).

Definition time_part (t : Timestamp) : string :=
  PyStr.pad2 (hour t) ++ ":" ++ PyStr.pad2 (minute t) ++ ":" ++
  PyStr.pad2 (second t).

Lemma date_string_parts (c : Z) (t : Timestamp) :
  (PyStr.format_int c ++ "-" ++ strfstr t)%string =
  (date_part c t ++ String " " (time_part t))%string.
Proof.
  unfold date_part, strfstr, time_part.
  rewrite !append_assoc. reflexivity.
Qed.

Lemma illegal_feb29_spec (c : Z) (t : Timestamp) :
  0 <= c -> valid_fields t = true ->
  illegal_feb29 (PyStr.format_int c ++ "-" ++ strfstr t) =
    Ok (is_feb29 t && negb (isleap c)).
Proof.
  intros Hc Hv.
  destruct (valid_fields_ranges t Hv) as [Hm [Hd _]].
  destruct (all_digits_no_sep _ (all_digits_format_int c Hc)) as [Hy1 Hy2].
  destruct (contains_pad2 _ Hm) as [Hm1 Hm2].
  destruct (contains_pad2 _ Hd) as [Hd1 Hd2].
  unfold illegal_feb29. rewrite date_string_parts.
  rewrite split_append.
  2:{ unfold date_part. rewrite !contains_append, Hy2, Hm2, Hd2. reflexivity. }
  cbn [PyStr.item nth_error bind].
  unfold date_part at 1.
  change ("-" ++ PyStr.pad2 (month t) ++ "-" ++ PyStr.pad2 (day t))%string
    with (String "-" (PyStr.pad2 (month t) ++ "-" ++ PyStr.pad2 (day t))).
  rewrite (split1_append _ _ _ Hy1).
  cbn [PyStr.item nth_error bind].
  rewrite (month_day_eqb _ _ Hm Hd). unfold is_feb29.
  destruct ((month t =? 2) && (day t =? 29)); [| reflexivity].
  unfold date_part.
  change ("-" ++ PyStr.pad2 (month t) ++ "-" ++ PyStr.pad2 (day t))%string
    with (String "-" (PyStr.pad2 (month t) ++ "-" ++ PyStr.pad2 (day t))).
  rewrite (split_append _ _ _ Hy1).
  cbn [PyStr.item nth_error bind].
  rewrite (int_format_int c Hc). reflexivity.
Qed.
End DateStringFacts.

Section ToDatetimeFacts.

(** A year that a [Timestamp] can hold prints as two padded pairs of
    digits: checked on each year from 1677 to 2262. *)
Lemma four_digit_years :
  forallb (fun k =>
             String.eqb (PyStr.format_int (Z.of_nat k))
                        (PyStr.pad2 (Z.of_nat k / 100) ++
                         PyStr.pad2 (Z.of_nat k mod 100)))
          (seq (Z.to_nat 1677) (Z.to_nat 586)) = true.
Proof. vm_compute. reflexivity. Qed.

Lemma format_int_four_digits (c : Z) :
  1677 <= c <= 2262 ->
  PyStr.format_int c = (PyStr.pad2 (c / 100) ++ PyStr.pad2 (c mod 100))%string.
Proof.
  intros Hc.
  assert (Hin : In (Z.to_nat c) (seq (Z.to_nat 1677) (Z.to_nat 586))).
  { apply in_seq. lia. }
  pose proof (proj1 (forallb_forall _ _) four_digit_years _ Hin) as H.
  cbv beta in H. rewrite Z2Nat.id in H by lia.
  apply String.eqb_eq. exact H.
Qed.

Lemma digits4_format_int (c : Z) (rest : string) :
  1677 <= c <= 2262 ->
  Parse.digits4 (PyStr.format_int c ++ rest) = Some (c, rest).
Proof.
  intros Hc. rewrite (format_int_four_digits c Hc), append_assoc.
  unfold Parse.digits4.
  assert (0 <= c / 100 < 100).
  { split; [apply Z.div_pos; lia | apply Z.div_lt_upper_bound; lia]. }
  pose proof (Z.mod_pos_bound c 100).
  rewrite digits2_pad2 by lia. rewrite digits2_pad2 by lia.
  do 2 f_equal. pose proof (Z.div_mod c 100). lia.
Qed.

Lemma expect_cons (c : ascii) (s : string) : Parse.expect c (String c s) = Some s.
Proof. unfold Parse.expect. rewrite Ascii.eqb_refl. reflexivity. Qed.

Lemma append_nil_r (s : string) : (s ++ "")%string = s.
Proof. induction s as [| c s IH]; simpl; [reflexivity | rewrite IH; reflexivity]. Qed.

(** Parsing reads back the fields that were printed. *)
Lemma fields_strfstr (y : string) (c : Z) (t : Timestamp) :
  (forall rest, Parse.digits4 (y ++ rest) = Some (c, rest)) ->
  valid_fields t = true ->
  Parse.fields (y ++ "-" ++ strfstr t) = Some (in_year c t).
Proof.
  intros Hy Hv.
  destruct (valid_fields_ranges t Hv) as [Hm [Hd [Hh [Hmi Hs]]]].
  unfold Parse.fields, strfstr. rewrite Hy.
  rewrite <- (append_nil_r (PyStr.pad2 (second t))).
  repeat first [ rewrite digits2_pad2 by assumption
               | rewrite expect_cons
               | progress cbn [Parse.andThen append] ].
  reflexivity.
Qed.

Lemma to_datetime1_column (c : Z) (t : Timestamp) :
  1677 <= c <= 2262 -> valid_fields t = true ->
  to_datetime1 (PyStr.format_int c ++ "-" ++ strfstr t) =
    if valid_timestamp (in_year c t) then Ok (in_year c t) else Raise ValueError.
Proof.
  intros Hc Hv. unfold to_datetime1.
  rewrite (fields_strfstr (PyStr.format_int c) c t); [reflexivity | | exact Hv].
  intros rest. apply digits4_format_int, Hc.
Qed.

Lemma to_datetime1_2000 (t : Timestamp) :
  valid_fields t = true ->
  to_datetime1 ("2000-" ++ strfstr t) =
    if valid_timestamp (in_year 2000 t) then Ok (in_year 2000 t)
    else Raise ValueError.
Proof.
  intros Hv. unfold to_datetime1.
  change ("2000-" ++ strfstr t)%string with ("2000" ++ "-" ++ strfstr t)%string.
  rewrite (fields_strfstr "2000" 2000 t); [reflexivity | | exact Hv].
  intros rest. reflexivity.
Qed.
End ToDatetimeFacts.

(** ** The flattener, cell by cell *)

(** The cells of a yearly table in flattening order, each with its
    column's year and its row's label: the outer loop runs over the
    columns, the inner one over the rows. *)
Definition flat_cells (df : DataFrame Timestamp Z float)
  : list (Z * Timestamp * float) :=
  combine (flat_map (fun c => map (pair c) (index df)) (columns df))
          (flatten (values (transpose df))).

(** A cell is kept unless its row is February 29 and its column's year
    is not a leap year. *)
Definition kept_label (l : Z * Timestamp) : bool :=
  negb (is_feb29 (snd l) && negb (isleap (fst l))).

Definition kept_cell (x : Z * Timestamp * float) : bool := kept_label (fst x).

Definition cell_entry (x : Z * Timestamp * float) : Timestamp * float :=
  (in_year (fst (fst x)) (snd (fst x)), snd x).

(** What the flattener is to return. *)
Definition flattened (df : DataFrame Timestamp Z float) : Series :=
  dropna (map cell_entry (filter kept_cell (flat_cells df))).

(** The table is a rectangle: a row of cells per label, a cell per
    column in every row. *)
Definition wf_frame {I C A : Type} (df : DataFrame I C A) : Prop :=
  List.length (values df) = List.length (index df) /\
  Forall (fun r => List.length r = List.length (columns df)) (values df).

Section MaskFacts.
Context {A B C : Type}.

Lemma mask_map (g : A -> C) (p : A -> bool) (l : list A) :
  mask (map g l) (map p l) = map g (filter p l).
Proof.
  induction l as [| a l IH]; simpl; [reflexivity |].
  rewrite IH. destruct (p a); reflexivity.
Qed.

Lemma mask_combine (p : A -> bool) (l : list A) (v : list B) :
  List.length l = List.length v ->
  mask v (map p l) = map snd (filter (fun x => p (fst x)) (combine l v)).
Proof.
  revert v. induction l as [| a l IH]; intros [| b v] H; try discriminate H.
  - reflexivity.
  - simpl. rewrite (IH v) by (simpl in H; lia). destruct (p a); reflexivity.
Qed.

Lemma filter_combine_fst (p : A -> bool) (l : list A) (v : list B) :
  List.length l = List.length v ->
  filter p l = map fst (filter (fun x => p (fst x)) (combine l v)).
Proof.
  revert v. induction l as [| a l IH]; intros [| b v] H; try discriminate H.
  - reflexivity.
  - simpl. rewrite (IH v) by (simpl in H; lia). destruct (p a); reflexivity.
Qed.

Lemma combine_map_fst_snd (h : A -> C) (l : list (A * B)) :
  combine (map h (map fst l)) (map snd l) = map (fun x => (h (fst x), snd x)) l.
Proof.
  induction l as [| [a b] l IH]; simpl; [reflexivity | rewrite IH; reflexivity].
Qed.

Lemma mapM_map_ok (f : C -> Exc B) (g : A -> C) (h : A -> B) (l : list A) :
  (forall a, In a l -> f (g a) = Ok (h a)) ->
  mapM f (map g l) = Ok (map h l).
Proof.
  induction l as [| a l IH]; intros H; simpl; [reflexivity |].
  rewrite (H a (or_introl eq_refl)). simpl.
  rewrite IH by (intros x Hx; apply H; right; exact Hx). reflexivity.
Qed.
End MaskFacts.

Section ShapeFacts.
Context {A : Type}.

Lemma zip_cons_shape (r : list A) (rows : list (list A)) (n : nat) :
  List.length rows = List.length r ->
  Forall (fun x => List.length x = n) rows ->
  List.length (zip_cons r rows) = List.length r /\
  Forall (fun x => List.length x = S n) (zip_cons r rows).
Proof.
  revert rows. induction r as [| a r IH]; intros [| c rows] Hlen Hall;
    try discriminate Hlen; simpl.
  - split; [reflexivity | constructor].
  - inversion Hall as [| ? ? Hc Hrest]; subst.
    destruct (IH rows) as [H1 H2]; [simpl in Hlen; lia | exact Hrest |].
    split; [rewrite H1; reflexivity |].
    constructor; [reflexivity | exact H2].
Qed.

(** The transpose of [k] rows of width [w] has [w] rows of width [k]. *)
Lemma transpose_rows_shape (w : nat) (rows : list (list A)) :
  Forall (fun r => List.length r = w) rows ->
  List.length (transpose_rows w rows) = w /\
  Forall (fun c => List.length c = List.length rows) (transpose_rows w rows).
Proof.
  intros Hall. induction Hall as [| r rows Hr Hall [IH1 IH2]]; simpl.
  - split; [apply repeat_length |].
    apply Forall_forall. intros x Hx. apply repeat_spec in Hx. subst. reflexivity.
  - destruct (zip_cons_shape r (transpose_rows w rows) (List.length rows))
      as [H1 H2]; [congruence | exact IH2 |].
    split; [congruence | exact H2].
Qed.

Lemma concat_length_uniform (m : list (list A)) (n : nat) :
  Forall (fun r => List.length r = n) m ->
  List.length (List.concat m) = (List.length m * n)%nat.
Proof.
  intros H. induction H as [| r m Hr H IH]; simpl; [reflexivity |].
  rewrite length_app, IH, Hr. reflexivity.
Qed.

Lemma flat_map_pair_length {K L : Type} (cols : list K) (idx : list L) :
  List.length (flat_map (fun c => map (pair c) idx) cols) =
  (List.length cols * List.length idx)%nat.
Proof.
  induction cols as [| c cols IH]; simpl; [reflexivity |].
  rewrite length_app, length_map, IH. reflexivity.
Qed.
End ShapeFacts.

Lemma flat_cells_lengths (df : DataFrame Timestamp Z float) :
  wf_frame df ->
  List.length (flat_map (fun c => map (pair c) (index df)) (columns df)) =
  List.length (flatten (values (transpose df))).
Proof.
  intros [Hrows Hall]. rewrite flat_map_pair_length.
  unfold flatten, transpose. simpl.
  destruct (transpose_rows_shape _ _ Hall) as [H1 H2].
  rewrite (concat_length_uniform _ _ H2), H1, Hrows. reflexivity.
Qed.

Section FlattenerFacts.

(** A kept label names a day that exists in the column's year. *)
Lemma valid_in_year (c : Z) (t : Timestamp) :
  valid_fields t = true -> 1678 <= c <= 2261 -> kept_label (c, t) = true ->
  valid_timestamp (in_year c t) = true.
Proof.
  unfold kept_label, is_feb29, valid_timestamp, valid_fields, in_bounds,
    ts_leb, ts_key, in_year, days_in_month.
  cbn [year month day hour minute second nanosecond fst snd ts_min ts_max].
  intros Hv Hc Hk.
  repeat (apply andb_prop in Hv; destruct Hv as [Hv ?]).
  repeat rewrite andb_true_iff.
  rewrite ?Z.leb_le, ?Z.ltb_lt in *.
  destruct (month t =? 2); destruct (isleap c); destruct (isleap (year t));
    destruct (day t =? 29) eqn:E;
    destruct ((month t =? 4) || (month t =? 6) || (month t =? 9) || (month t =? 11));
    simpl in Hk; try discriminate Hk;
    rewrite ?Z.eqb_neq, ?Z.eqb_eq in E; repeat split; lia.
Qed.

Lemma source_idx (df : DataFrame Timestamp Z float) :
  flatten (map (fun col =>
                  map (fun t => (PyStr.format_int col ++ "-" ++ strfstr t)%string)
                      (index df))
               (columns df)) =
  map (fun l => (PyStr.format_int (fst l) ++ "-" ++ strfstr (snd l))%string)
      (flat_map (fun c => map (pair c) (index df)) (columns df)).
Proof.
  unfold flatten. induction (columns df) as [| c cols IH];
    cbn [map flat_map List.concat]; [reflexivity |].
  rewrite IH, map_app, map_map. reflexivity.
Qed.

Lemma in_labels (df : DataFrame Timestamp Z float) (l : Z * Timestamp) :
  In l (flat_map (fun c => map (pair c) (index df)) (columns df)) ->
  In (fst l) (columns df) /\ In (snd l) (index df).
Proof.
  intros H. apply in_flat_map in H. destruct H as [c [Hc H]].
  apply in_map_iff in H. destruct H as [t [<- Ht]]. split; assumption.
Qed.

(** The flattener on a table whose columns are years that timestamps
    cover: it returns, and what it returns is [flattened]. *)
Lemma get_data_series_flattened (df : DataFrame Timestamp Z float) :
  wf_frame df ->
  columns df <> [] -> index df <> [] ->
  (forall t, In t (index df) -> valid_fields t = true) ->
  (forall c, In c (columns df) -> 1678 <= c <= 2261) ->
  get_data_series df = Ok (flattened df).
Proof.
  intros Hwf Hcols Hidx Hvalid Hyears.
  unfold get_data_series. rewrite source_idx.
  set (labels := flat_map (fun c => map (pair c) (index df)) (columns df)).
  set (str := fun l : Z * Timestamp =>
                (PyStr.format_int (fst l) ++ "-" ++ strfstr (snd l))%string).
  assert (Hlabels : forall l, In l labels ->
                      1678 <= fst l <= 2261 /\ valid_fields (snd l) = true).
  { intros l Hl. destruct (in_labels df l Hl) as [H1 H2].
    split; [apply Hyears, H1 | apply Hvalid, H2]. }
  rewrite (mapM_map_ok illegal_feb29 str
             (fun l => is_feb29 (snd l) && negb (isleap (fst l)))).
  2:{ intros l Hl. destruct (Hlabels l Hl) as [H1 H2].
      apply illegal_feb29_spec; [lia | exact H2]. }
  cbn [bind].
  assert (Hne : labels <> []).
  { unfold labels. destruct (columns df) as [| c cols]; [contradiction |].
    destruct (index df) as [| t idx]; [contradiction | discriminate]. }
  unfold invert.
  destruct (map (fun l => is_feb29 (snd l) && negb (isleap (fst l))) labels)
    as [| b bs] eqn:Hb.
  { destruct labels; [contradiction | discriminate Hb]. }
  rewrite <- Hb. clear Hb b bs. cbn [bind]. rewrite map_map.
  change (fun x : Z * Timestamp => negb (is_feb29 (snd x) && negb (isleap (fst x))))
    with kept_label.
  rewrite mask_map.
  unfold to_datetime.
  rewrite (mapM_map_ok to_datetime1 str (fun l => in_year (fst l) (snd l))).
  2:{ intros l Hl. apply filter_In in Hl. destruct Hl as [Hl Hk].
      destruct (Hlabels l Hl) as [H1 H2]. unfold str.
      destruct l as [c t]. cbn [fst snd] in *.
      rewrite to_datetime1_column by (try lia; exact H2).
      rewrite (valid_in_year c t H2 H1 Hk). reflexivity. }
  cbn [bind].
  pose proof (flat_cells_lengths df Hwf) as Hlen. fold labels in Hlen.
  rewrite (mask_combine kept_label labels _ Hlen).
  rewrite (filter_combine_fst kept_label labels _ Hlen).
  unfold mkSeries. rewrite !length_map, Nat.eqb_refl. cbn [bind].
  rewrite combine_map_fst_snd. reflexivity.
Qed.
End FlattenerFacts.

Section LeapDayFacts.

Lemma to_datetime1_valid (s : string) (t : Timestamp) :
  to_datetime1 s = Ok t -> valid_timestamp t = true.
Proof.
  unfold to_datetime1. destruct (Parse.fields s) as [t' |]; [| discriminate].
  destruct (valid_timestamp t') eqn:E; [| discriminate].
  intros H. injection H as <-. exact E.
Qed.

Lemma to_datetime_valid (l : list string) (idx : DatetimeIndex) :
  to_datetime l = Ok idx -> Forall (fun t => valid_timestamp t = true) idx.
Proof.
  intros H. apply mapM_pointwise in H.
  induction H as [| s t l idx Hs _ IH]; constructor; [| exact IH].
  eapply to_datetime1_valid. exact Hs.
Qed.

(** No timestamp is a February 29 of a year that is not a leap year. *)
Lemma valid_not_illegal (t : Timestamp) :
  valid_timestamp t = true ->
  ~ (is_feb29 t = true /\ isleap (year t) = false).
Proof.
  unfold valid_timestamp, valid_fields, days_in_month, is_feb29.
  intros Hv [Hf Hl].
  repeat (apply andb_prop in Hv; destruct Hv as [Hv ?]).
  apply andb_prop in Hf. destruct Hf as [Hm Hd].
  rewrite Hm, Hl in *. rewrite ?Z.leb_le, ?Z.eqb_eq in *. lia.
Qed.

(** Whatever the flattener returns carries valid timestamps only. *)
Lemma get_data_series_valid (df : DataFrame Timestamp Z float) (out : Series) :
  get_data_series df = Ok out ->
  forall e, In e out -> valid_timestamp (fst e) = true.
Proof.
  unfold get_data_series. intros H e He.
  destruct (mapM illegal_feb29 _) as [illegal |]; cbn [bind] in H; [| discriminate].
  destruct (invert illegal) as [boolidx |]; cbn [bind] in H; [| discriminate].
  destruct (to_datetime _) as [dt_idx |] eqn:Hdt; cbn [bind] in H; [| discriminate].
  unfold mkSeries in H.
  destruct (_ =? _)%nat; cbn [bind] in H; [| discriminate].
  injection H as <-.
  apply filter_In in He. destruct He as [He _].
  destruct e as [t v]. apply in_combine_l in He.
  pose proof (to_datetime_valid _ _ Hdt) as Hall.
  rewrite Forall_forall in Hall. apply Hall, He.
Qed.

(** C2: for every yearly table, the series that [get_data_series]
    returns has no entry dated February 29 of a year that is not a leap
    year; and on a table whose columns are years from 1678 to 2261 it
    does return, namely the non-missing cells in flattening order under
    their real timestamps, without the cells whose row is February 29
    and whose column's year is not a leap year. *)
Theorem get_data_series_discards_illegal_feb29 (df : DataFrame Timestamp Z float) :
  (forall out, get_data_series df = Ok out ->
     forall e, In e out ->
       ~ (is_feb29 (fst e) = true /\ isleap (year (fst e)) = false)) /\
  (wf_frame df ->
   columns df <> [] -> index df <> [] ->
   (forall t, In t (index df) -> valid_timestamp t = true) ->
   (forall c, In c (columns df) -> 1678 <= c <= 2261) ->
   get_data_series df =
     Ok (dropna (map cell_entry (filter kept_cell (flat_cells df)))) /\
   (forall c t v, In (c, t, v) (flat_cells df) ->
      is_feb29 t = true -> isleap c = false ->
      ~ In (c, t, v) (filter kept_cell (flat_cells df))) /\
   (forall c t v, In (c, t, v) (flat_cells df) ->
      ~ (is_feb29 t = true /\ isleap c = false) ->
      PrimFloat.is_nan v = false ->
      In (in_year c t, v)
         (dropna (map cell_entry (filter kept_cell (flat_cells df)))))).
Proof.
  split.
  - intros out Hout e He. apply valid_not_illegal.
    eapply get_data_series_valid; eassumption.
  - intros Hwf Hcols Hidx Hvalid Hyears. split; [| split].
    + apply get_data_series_flattened; try assumption.
      intros t Ht. specialize (Hvalid t Ht).
      apply andb_prop in Hvalid. tauto.
    + intros c t v _ Hf Hl Hin. apply filter_In in Hin. destruct Hin as [_ Hk].
      unfold kept_cell, kept_label in Hk. cbn [fst snd] in Hk.
      rewrite Hf, Hl in Hk. discriminate Hk.
    + intros c t v Hin Hlegal Hnan. unfold dropna. apply filter_In. split.
      * apply (in_map cell_entry _ (c, t, v)). apply filter_In. split; [exact Hin |].
        unfold kept_cell, kept_label. cbn [fst snd].
        destruct (is_feb29 t); destruct (isleap c); try reflexivity.
        exfalso. apply Hlegal. split; reflexivity.
      * cbn [snd]. rewrite Hnan. reflexivity.
Qed.
End LeapDayFacts.

Definition leap_table : DataFrame Timestamp Z float :=
  mkFrame [mkTimestamp 2000 2 28 0 0 0 0; mkTimestamp 2000 2 29 0 0 0 0]
          [2000; 2001]
          [[1%float; 2%float]; [3%float; 4%float]].

(** Rows February 28 and 29 under the columns 2000 and 2001: the cell of
    February 29 in 2001 (the value 4) is gone, the three others stay. *)
Lemma get_data_series_discards_illegal_feb29_witness :
  get_data_series leap_table =
    Ok [(mkTimestamp 2000 2 28 0 0 0 0, 1%float);
        (mkTimestamp 2000 2 29 0 0 0 0, 3%float);
        (mkTimestamp 2001 2 28 0 0 0 0, 2%float)].
Proof.
  destruct (get_data_series_discards_illegal_feb29 leap_table) as [_ H].
  destruct H as [H _].
  - split; [reflexivity | repeat constructor].
  - discriminate.
  - discriminate.
  - intros t [<- | [<- | []]]; reflexivity.
  - intros c [<- | [<- | []]]; lia.
  - vm_compute in H. exact H.
Defined.

(** ** The round trip *)

Definition zseq (lo : Z) (n : nat) : list Z :=
  map (fun k => lo + Z.of_nat k) (seq 0 n).

Definition not_nan (v : float) : bool := negb (PrimFloat.is_nan v).

Definition time_le (a b : Timestamp) : Prop := ts_key a <= ts_key b.

Definition by_time (a b : Timestamp * float) : Prop :=
  ts_leb (fst a) (fst b) = true.

Definition year_is (y : Z) (e : Timestamp * float) : bool := year (fst e) =? y.

Definition rekeyed (e : Timestamp * float) : Timestamp * float :=
  (in_year 2000 (fst e), snd e).

(** A timestamp with its fraction of a second cut off: what is left of
    it after [strftime] to the second and back. *)
Definition to_second (t : Timestamp) : Timestamp := in_year (year t) t.

Definition second_entry (e : Timestamp * float) : Timestamp * float :=
  (to_second (fst e), snd e).

(** The timestamp to the second, as a number. *)
Definition sec_key (t : Timestamp) : Z :=
  ((((year t * 13 + month t) * 32 + day t) * 24 + hour t) * 60 + minute t) * 60
  + second t.

(** The entries are in time order, at most one to the second. *)
Fixpoint seconds_increasing (l : DatetimeIndex) : bool :=
  match l with
  | a :: ((b :: _) as l') => (sec_key a <? sec_key b) && seconds_increasing l'
  | _ => true
  end.

Definition sec_lt (a b : Timestamp) : Prop := sec_key a < sec_key b.

Definition time_lt (a b : Timestamp) : Prop := ts_key a < ts_key b.

Definition year_le (a b : Timestamp * float) : Prop := year (fst a) <= year (fst b).

(** The group of the year [y], as [group_yearly_df] lays it out: the
    entries of that year under their labels in the year 2000. *)
Definition year_group (s : Series) (y : Z) : Series :=
  map rekeyed (filter (year_is y) s).

(** The instants that a year-end grouper takes: from 1678-01-01 on, and
    before 2261-12-31.  Between them both edges of the bins fit. *)
Definition groupable (t : Timestamp) : bool :=
  (1678 <=? year t) && (ts_key t <? ts_key (mkTimestamp 2261 12 31 0 0 0 0)).

Section SortFacts.

(** Sorting leaves a series that is in time order as it is. *)
Lemma sort_index_sorted (s : Series) : Sorted by_time s -> sort_index s = s.
Proof.
  intros H. induction H as [| e s Hs IH Hd]; simpl; [reflexivity |].
  rewrite IH. destruct Hd as [| x s' Hx]; simpl; [reflexivity |].
  unfold by_time in Hx. rewrite Hx. reflexivity.
Qed.

Lemma sorted_of_index (s : Series) : Sorted time_le (map fst s) -> Sorted by_time s.
Proof.
  induction s as [| e s IH]; simpl; intros H; [constructor |].
  inversion H as [| ? ? Hs Hd]; subst. constructor; [apply IH, Hs |].
  destruct s as [| x s']; [constructor |]. simpl in Hd.
  inversion Hd; subst. constructor. unfold by_time, ts_leb.
  apply Z.leb_le. assumption.
Qed.

Lemma zseq_cons (lo : Z) (n : nat) : zseq lo (S n) = lo :: zseq (lo + 1) n.
Proof.
  unfold zseq. simpl. f_equal; [lia |].
  rewrite <- seq_shift, map_map. apply map_ext. intros k. lia.
Qed.

Lemma in_zseq (lo : Z) (n : nat) (y : Z) :
  In y (zseq lo n) <-> lo <= y < lo + Z.of_nat n.
Proof.
  unfold zseq. rewrite in_map_iff. split.
  - intros [k [<- Hk]]. apply in_seq in Hk. lia.
  - intros H. exists (Z.to_nat (y - lo)). split; [lia |]. apply in_seq. lia.
Qed.

Lemma HdRel_insert (x e : Timestamp * float) (l : Series) :
  by_time x e -> HdRel by_time x l -> HdRel by_time x (insert_by_time e l).
Proof.
  intros Hxe H. destruct H as [| y l Hxy]; cbn [insert_by_time].
  - constructor. exact Hxe.
  - destruct (ts_leb (fst e) (fst y)); constructor; assumption.
Qed.

Lemma insert_by_time_sorted (e : Timestamp * float) (l : Series) :
  Sorted by_time l -> Sorted by_time (insert_by_time e l).
Proof.
  intros H. induction H as [| x l Hl IH Hx]; cbn [insert_by_time].
  - repeat constructor.
  - destruct (ts_leb (fst e) (fst x)) eqn:E.
    + constructor; [constructor; assumption |]. constructor. exact E.
    + constructor; [exact IH |]. apply HdRel_insert; [| exact Hx].
      unfold by_time, ts_leb in *. apply Z.leb_gt in E. apply Z.leb_le. lia.
Qed.

(** What the grouper works on is in time order. *)
Lemma sort_index_in_order (l : Series) : Sorted by_time (sort_index l).
Proof.
  induction l as [| e l IH]; [constructor |].
  cbn [sort_index]. apply insert_by_time_sorted, IH.
Qed.

Lemma insert_by_time_in (e x : Timestamp * float) (l : Series) :
  In x (insert_by_time e l) <-> x = e \/ In x l.
Proof.
  induction l as [| y l IH]; cbn [insert_by_time].
  - cbn [In]. split; [intros [H | []]; left; symmetry; exact H |].
    intros [H | []]. left. symmetry. exact H.
  - destruct (ts_leb (fst e) (fst y)); cbn [In].
    + split; [intros [H | H]; [left; symmetry; exact H | right; exact H] |].
      intros [H | H]; [left; symmetry; exact H | right; exact H].
    + rewrite IH. split.
      * intros [H | [H | H]]; [right; left; exact H | left; exact H |
                                right; right; exact H].
      * intros [H | [H | H]]; [right; left; exact H | left; exact H |
                                right; right; exact H].
Qed.

Lemma sort_index_in (x : Timestamp * float) (l : Series) :
  In x (sort_index l) <-> In x l.
Proof.
  induction l as [| e l IH]; [reflexivity |].
  cbn [sort_index In]. rewrite insert_by_time_in, IH.
  split; (intros [H | H]; [left; symmetry; exact H | right; exact H]).
Qed.

Lemma insert_by_time_perm (e : Timestamp * float) (l : Series) :
  Permutation (insert_by_time e l) (e :: l).
Proof.
  induction l as [| y l IH]; cbn [insert_by_time]; [apply Permutation_refl |].
  destruct (ts_leb (fst e) (fst y)); [apply Permutation_refl |].
  eapply perm_trans; [apply perm_skip, IH | apply perm_swap].
Qed.

Lemma sort_index_perm (l : Series) : Permutation (sort_index l) l.
Proof.
  induction l as [| e l IH]; [constructor |]. cbn [sort_index].
  eapply perm_trans; [apply insert_by_time_perm | apply perm_skip, IH].
Qed.

Lemma filter_perm {A : Type} (p : A -> bool) (l l' : list A) :
  Permutation l l' -> Permutation (filter p l) (filter p l').
Proof.
  intros H. induction H as [| x l l' H IH | x y l | l l' l'' H1 IH1 H2 IH2];
    cbn [filter].
  - constructor.
  - destruct (p x); [apply perm_skip |]; exact IH.
  - destruct (p x); destruct (p y); try apply Permutation_refl. apply perm_swap.
  - eapply perm_trans; eassumption.
Qed.

End SortFacts.

Section ListFacts.

Lemma filter_all {A : Type} (p : A -> bool) (l : list A) :
  (forall a, In a l -> p a = true) -> filter p l = l.
Proof.
  induction l as [| a l IH]; intros H; simpl; [reflexivity |].
  rewrite (H a (or_introl eq_refl)), IH; [reflexivity |].
  intros x Hx. apply H. right. exact Hx.
Qed.

Lemma filter_none {A : Type} (p : A -> bool) (l : list A) :
  (forall a, In a l -> p a = false) -> filter p l = [].
Proof.
  induction l as [| a l IH]; intros H; simpl; [reflexivity |].
  rewrite (H a (or_introl eq_refl)). apply IH.
  intros x Hx. apply H. right. exact Hx.
Qed.

Lemma last_map {A B : Type} (f : A -> B) (l : list A) (d : A) :
  last (map f l) (f d) = f (last l d).
Proof.
  induction l as [| a l IH]; [reflexivity |].
  cbn [map last]. destruct l as [| b l']; [reflexivity | exact IH].
Qed.

Lemma last_in {A : Type} (l : list A) (d : A) : l <> [] -> In (last l d) l.
Proof.
  induction l as [| a l IH]; intros H; [contradiction |].
  destruct l as [| b l']; [left; reflexivity |].
  right. apply IH. discriminate.
Qed.

Lemma mapM_ok {A B : Type} (f : A -> Exc B) (h : A -> B) (l : list A) :
  (forall a, In a l -> f a = Ok (h a)) -> mapM f l = Ok (map h l).
Proof.
  intros H. rewrite <- (map_id l) at 1.
  apply (mapM_map_ok f (fun a => a) h). exact H.
Qed.

End ListFacts.

Section RegroupFacts.

(** Every month-and-day exists in the leap year 2000. *)
Lemma valid_in_2000 (t : Timestamp) :
  valid_fields t = true -> valid_timestamp (in_year 2000 t) = true.
Proof.
  unfold valid_timestamp, valid_fields, in_bounds, ts_leb, ts_key, in_year,
    days_in_month.
  cbn [year month day hour minute second nanosecond ts_min ts_max].
  intros Hv.
  repeat (apply andb_prop in Hv; destruct Hv as [Hv ?]).
  repeat rewrite andb_true_iff.
  rewrite ?Z.leb_le, ?Z.ltb_lt in *.
  change (isleap 2000) with true. cbv iota.
  destruct (month t =? 2); destruct (isleap (year t));
    destruct ((month t =? 4) || (month t =? 6) || (month t =? 9) || (month t =? 11));
    repeat split; lia.
Qed.

(** Re-keying a group onto the year 2000 keeps its values and moves
    each label to the same month, day and time of day. *)
Lemma rekey_2000_ok (g : Series) :
  (forall e, In e g -> valid_fields (fst e) = true) ->
  rekey_2000 g = Ok (map rekeyed g).
Proof.
  intros Hv. unfold rekey_2000, to_datetime. rewrite map_map.
  rewrite (mapM_map_ok to_datetime1 _ (fun e => in_year 2000 (fst e))).
  2:{ intros e He. rewrite to_datetime1_2000 by (apply Hv, He).
      rewrite valid_in_2000 by (apply Hv, He). reflexivity. }
  cbn [bind]. unfold mkSeries. rewrite !length_map, Nat.eqb_refl.
  f_equal. clear Hv. induction g as [| e g IH]; [reflexivity |].
  cbn [map combine]. rewrite IH. reflexivity.
Qed.

Lemma ts_eqb_refl (t : Timestamp) : ts_eqb t t = true.
Proof. unfold ts_eqb. rewrite !Z.eqb_refl. reflexivity. Qed.

Lemma ts_eqb_eq (a b : Timestamp) : ts_eqb a b = true -> a = b.
Proof.
  unfold ts_eqb. intros H.
  repeat (apply andb_prop in H; destruct H as [H ?]).
  rewrite Z.eqb_eq in *. destruct a, b. cbn in *. congruence.
Qed.

End RegroupFacts.

Section KeyFacts.

Lemma ts_key_sec_key (t : Timestamp) :
  ts_key t = sec_key t * 1000000000 + nanosecond t.
Proof. reflexivity. Qed.

Lemma valid_fields_bounds (t : Timestamp) :
  valid_fields t = true ->
  1 <= month t <= 12 /\ 1 <= day t <= 31 /\ 0 <= hour t < 24 /\
  0 <= minute t < 60 /\ 0 <= second t < 60 /\ 0 <= nanosecond t < 1000000000.
Proof.
  unfold valid_fields, days_in_month. intros H.
  repeat (apply andb_prop in H; destruct H as [H ?]).
  rewrite ?Z.leb_le, ?Z.ltb_lt in *.
  destruct (month t =? 2); destruct (isleap (year t));
    destruct ((month t =? 4) || (month t =? 6) || (month t =? 9) || (month t =? 11));
    repeat split; lia.
Qed.

(** Two valid timestamps at the same place of the time line are one. *)
Lemma ts_key_inj (a b : Timestamp) :
  valid_fields a = true -> valid_fields b = true ->
  ts_key a = ts_key b -> a = b.
Proof.
  intros Ha Hb E.
  apply valid_fields_bounds in Ha, Hb.
  unfold ts_key in E. destruct a as [y m d hh mi ss ns], b as [y' m' d' hh' mi' ss' ns'].
  cbn [year month day hour minute second nanosecond] in *.
  assert (ns = ns') by lia. assert (ss = ss') by lia.
  assert (mi = mi') by lia. assert (hh = hh') by lia.
  assert (d = d') by lia. assert (m = m') by lia. assert (y = y') by lia.
  congruence.
Qed.

Lemma ts_eqb_neq (a b : Timestamp) : ts_eqb a b = false -> a <> b.
Proof. intros H ->. rewrite ts_eqb_refl in H. discriminate H. Qed.

Lemma time_lt_neq (a b : Timestamp) : time_lt a b -> ts_eqb a b = false.
Proof.
  intros H. destruct (ts_eqb a b) eqn:E; [| reflexivity].
  apply ts_eqb_eq in E. subst b. unfold time_lt in H. lia.
Qed.

Lemma time_lt_trans (a b c : Timestamp) : time_lt a b -> time_lt b c -> time_lt a c.
Proof. unfold time_lt. lia. Qed.

Lemma sec_lt_year (a b : Timestamp) :
  valid_fields a = true -> valid_fields b = true ->
  sec_lt a b -> year a <= year b.
Proof.
  intros Ha Hb. apply valid_fields_bounds in Ha, Hb.
  unfold sec_lt, sec_key. lia.
Qed.

Lemma sec_lt_time_le (a b : Timestamp) :
  valid_fields a = true -> valid_fields b = true ->
  sec_lt a b -> time_le a b.
Proof.
  intros Ha Hb. apply valid_fields_bounds in Ha, Hb.
  unfold sec_lt, time_le. rewrite !ts_key_sec_key. lia.
Qed.

(** Within one year, the order to the second is the order of the labels
    in the year 2000. *)
Lemma sec_lt_in_2000 (a b : Timestamp) :
  year a = year b -> sec_lt a b -> time_lt (in_year 2000 a) (in_year 2000 b).
Proof.
  unfold sec_lt, sec_key, time_lt, ts_key, in_year.
  cbn [year month day hour minute second nanosecond]. lia.
Qed.

Lemma seconds_increasing_sorted (l : DatetimeIndex) :
  seconds_increasing l = true -> StronglySorted sec_lt l.
Proof.
  intros H. apply Sorted_StronglySorted.
  - intros a b c. unfold sec_lt. lia.
  - induction l as [| a l IH]; [constructor |].
    destruct l as [| b l'].
    + repeat constructor.
    + cbn [seconds_increasing] in H. apply andb_prop in H. destruct H as [Hab Hl].
      constructor; [apply IH, Hl |]. constructor. apply Z.ltb_lt, Hab.
Qed.

Lemma StronglySorted_filter {A : Type} (R : A -> A -> Prop) (p : A -> bool)
      (l : list A) :
  StronglySorted R l -> StronglySorted R (filter p l).
Proof.
  intros H. induction H as [| a l Hl IH Ha]; cbn [filter]; [constructor |].
  destruct (p a); [| exact IH].
  constructor; [exact IH |].
  rewrite Forall_forall in *. intros x Hx. apply filter_In in Hx. apply Ha, Hx.
Qed.

Lemma StronglySorted_map {A B : Type} (R : A -> A -> Prop) (Q : B -> B -> Prop)
      (f : A -> B) (l : list A) :
  (forall a b, In a l -> In b l -> R a b -> Q (f a) (f b)) ->
  StronglySorted R l -> StronglySorted Q (map f l).
Proof.
  intros Hf H. induction H as [| a l Hl IH Ha]; cbn [map]; [constructor |].
  constructor.
  - apply IH. intros x y Hx Hy. apply Hf; right; assumption.
  - rewrite Forall_forall in *. intros y Hy. apply in_map_iff in Hy.
    destruct Hy as [x [<- Hx]]. apply Hf; [left; reflexivity | right; exact Hx |].
    apply Ha, Hx.
Qed.
End KeyFacts.

Section OrderedSeries.

Variable s : Series.
Hypothesis s_valid : forall e, In e s -> valid_fields (fst e) = true.
Hypothesis s_order : StronglySorted sec_lt (map fst s).

Lemma ordered_sort_index : sort_index s = s.
Proof.
  apply sort_index_sorted, sorted_of_index.
  apply StronglySorted_Sorted.
  eapply (StronglySorted_map sec_lt time_le (fun t => t)) in s_order.
  - rewrite map_id in s_order. exact s_order.
  - intros a b Ha Hb. apply in_map_iff in Ha, Hb.
    destruct Ha as [x [<- Hx]], Hb as [y [<- Hy]].
    apply sec_lt_time_le; apply s_valid; assumption.
Qed.

(** The groups of a series in time order: year by year from the first
    entry's year to the last bin's, each year's entries in their order. *)
Lemma ordered_groupby_year (e : Timestamp * float) (s' : Series) :
  s = e :: s' ->
  groupby_year s =
    map (fun y => (y, filter (year_is y) s))
        (years_between (year (fst e)) (last_bin_year (fst (last s e)))).
Proof.
  intros E. unfold groupby_year. rewrite ordered_sort_index, E. reflexivity.
Qed.

(** The labels of a year's group are in time order, none twice. *)
Lemma year_group_sorted (y : Z) :
  StronglySorted time_lt (map fst (year_group s y)).
Proof.
  unfold year_group. rewrite map_map. cbn [rekeyed fst].
  rewrite <- (map_map fst (in_year 2000)).
  assert (H : map fst (filter (year_is y) s) =
              filter (fun t => year t =? y) (map fst s)).
  { clear. induction s as [| e l IH]; [reflexivity |].
    cbn [filter map]. unfold year_is at 1. destruct (year (fst e) =? y);
      cbn [map]; rewrite IH; reflexivity. }
  rewrite H.
  apply (StronglySorted_map sec_lt time_lt).
  - intros a b Ha Hb Hab. apply filter_In in Ha, Hb.
    destruct Ha as [_ Ha], Hb as [_ Hb]. apply Z.eqb_eq in Ha, Hb.
    apply sec_lt_in_2000; [congruence | exact Hab].
  - apply StronglySorted_filter, s_order.
Qed.

Lemma year_group_valid (y : Z) (t : Timestamp) :
  In t (map fst (year_group s y)) -> valid_fields t = true.
Proof.
  unfold year_group. rewrite map_map. intros H. apply in_map_iff in H.
  destruct H as [e [<- He]]. apply filter_In in He. destruct He as [He _].
  cbn [rekeyed fst].
  pose proof (valid_in_2000 _ (s_valid e He)) as Hv.
  unfold valid_timestamp in Hv. apply andb_prop in Hv. apply Hv.
Qed.
End OrderedSeries.

(** ** The union of the groups' indexes *)

Section UnionFacts.

Lemma index_eqb_eq (a b : DatetimeIndex) : index_eqb a b = true -> a = b.
Proof.
  revert b. induction a as [| x a IH]; intros [| y b] H; try discriminate H;
    [reflexivity |].
  cbn [index_eqb] in H. apply andb_prop in H. destruct H as [H1 H2].
  apply ts_eqb_eq in H1. apply IH in H2. congruence.
Qed.

Lemma merge_index_nil_l (b : DatetimeIndex) : merge_index [] b = b.
Proof. destruct b; reflexivity. Qed.

Lemma merge_index_nil_r (a : DatetimeIndex) : merge_index a [] = a.
Proof. destruct a; reflexivity. Qed.

Lemma merge_index_cons (x y : Timestamp) (a b : DatetimeIndex) :
  merge_index (x :: a) (y :: b) =
    if ts_eqb x y then x :: merge_index a b
    else if ts_leb x y then x :: merge_index a (y :: b)
    else y :: merge_index (x :: a) b.
Proof. reflexivity. Qed.

(** The merge holds the labels of both sides, and no other. *)
Lemma merge_index_in (a b : DatetimeIndex) (t : Timestamp) :
  In t (merge_index a b) <-> In t a \/ In t b.
Proof.
  revert b. induction a as [| x a IHa]; intros b.
  - rewrite merge_index_nil_l. cbn [In]. tauto.
  - induction b as [| y b IHb].
    + rewrite merge_index_nil_r. cbn [In]. tauto.
    + rewrite merge_index_cons.
      destruct (ts_eqb x y) eqn:E; [| destruct (ts_leb x y)].
      * apply ts_eqb_eq in E. subst y. cbn [In]. rewrite IHa. tauto.
      * cbn [In]. rewrite IHa. cbn [In]. tauto.
      * cbn [In] in *. rewrite IHb. tauto.
Qed.

Lemma merge_index_above (z : Timestamp) (a b : DatetimeIndex) :
  Forall (time_lt z) a -> Forall (time_lt z) b ->
  Forall (time_lt z) (merge_index a b).
Proof.
  rewrite !Forall_forall. intros Ha Hb t Ht.
  apply merge_index_in in Ht. destruct Ht as [Ht | Ht]; [apply Ha | apply Hb]; exact Ht.
Qed.

Lemma Forall_above (x y : Timestamp) (l : DatetimeIndex) :
  time_lt x y -> Forall (time_lt y) l -> Forall (time_lt x) l.
Proof.
  intros Hxy H. eapply Forall_impl; [| exact H].
  intros t Ht. eapply time_lt_trans; eassumption.
Qed.

(** Merging two indexes in time order gives one in time order. *)
Lemma merge_index_sorted (a b : DatetimeIndex) :
  Forall (fun t => valid_fields t = true) a ->
  Forall (fun t => valid_fields t = true) b ->
  StronglySorted time_lt a -> StronglySorted time_lt b ->
  StronglySorted time_lt (merge_index a b).
Proof.
  revert b. induction a as [| x a IHa]; intros b Va Vb Sa Sb.
  - rewrite merge_index_nil_l. exact Sb.
  - induction b as [| y b IHb].
    + rewrite merge_index_nil_r. exact Sa.
    + rewrite merge_index_cons.
      inversion Va as [| ? ? Vx Va']; subst.
      inversion Vb as [| ? ? Vy Vb']; subst.
      inversion Sa as [| ? ? Sa' Ax]; subst.
      inversion Sb as [| ? ? Sb' Ay]; subst.
      destruct (ts_eqb x y) eqn:E; [| destruct (ts_leb x y) eqn:L].
      * apply ts_eqb_eq in E. subst y. constructor.
        -- apply IHa; assumption.
        -- apply merge_index_above; assumption.
      * assert (Hxy : time_lt x y).
        { unfold ts_leb in L. apply Z.leb_le in L. unfold time_lt.
          assert (ts_key x <> ts_key y); [| lia].
          intros K. apply ts_key_inj in K; [| assumption | assumption].
          subst y. rewrite ts_eqb_refl in E. discriminate E. }
        constructor.
        -- apply IHa; assumption.
        -- apply merge_index_above; [exact Ax |].
           constructor; [exact Hxy |]. eapply Forall_above; eassumption.
      * assert (Hyx : time_lt y x).
        { unfold ts_leb in L. apply Z.leb_gt in L. exact L. }
        constructor.
        -- apply IHb; assumption.
        -- apply merge_index_above; [| exact Ay].
           constructor; [exact Hyx |]. eapply Forall_above; eassumption.
Qed.

Lemma index_union_in (a b : DatetimeIndex) (t : Timestamp) :
  In t (index_union a b) <-> In t a \/ In t b.
Proof.
  unfold index_union.
  destruct a as [| x a]; destruct b as [| y b]; try (cbn [In]; tauto).
  destruct (index_eqb (x :: a) (y :: b)) eqn:E.
  - apply index_eqb_eq in E. rewrite <- E. tauto.
  - apply merge_index_in.
Qed.

Lemma index_union_sorted (a b : DatetimeIndex) :
  Forall (fun t => valid_fields t = true) a ->
  Forall (fun t => valid_fields t = true) b ->
  StronglySorted time_lt a -> StronglySorted time_lt b ->
  StronglySorted time_lt (index_union a b).
Proof.
  intros Va Vb Sa Sb. unfold index_union.
  destruct a as [| x a]; destruct b as [| y b]; try assumption.
  destruct (index_eqb (x :: a) (y :: b)); [exact Sa |].
  apply merge_index_sorted; assumption.
Qed.

Lemma index_union_valid (a b : DatetimeIndex) :
  Forall (fun t => valid_fields t = true) a ->
  Forall (fun t => valid_fields t = true) b ->
  Forall (fun t => valid_fields t = true) (index_union a b).
Proof.
  rewrite !Forall_forall. intros Va Vb t Ht.
  apply index_union_in in Ht. destruct Ht as [Ht | Ht]; [apply Va | apply Vb]; exact Ht.
Qed.

Lemma fold_union_in (ls : list DatetimeIndex) (a : DatetimeIndex) (t : Timestamp) :
  In t (fold_left index_union ls a) <->
  In t a \/ exists l, In l ls /\ In t l.
Proof.
  revert a. induction ls as [| l ls IH]; intros a; cbn [fold_left].
  - split; [tauto |]. intros [H | [l [[] _]]]. exact H.
  - rewrite IH, index_union_in. split.
    + intros [[H | H] | [l' [H1 H2]]].
      * left. exact H.
      * right. exists l. split; [left; reflexivity | exact H].
      * right. exists l'. split; [right; exact H1 | exact H2].
    + intros [H | [l' [[<- | H1] H2]]].
      * left. left. exact H.
      * left. right. exact H2.
      * right. exists l'. split; assumption.
Qed.

Lemma fold_union_sorted (ls : list DatetimeIndex) (a : DatetimeIndex) :
  Forall (fun l => Forall (fun t => valid_fields t = true) l /\
                   StronglySorted time_lt l) ls ->
  Forall (fun t => valid_fields t = true) a -> StronglySorted time_lt a ->
  Forall (fun t => valid_fields t = true) (fold_left index_union ls a) /\
  StronglySorted time_lt (fold_left index_union ls a).
Proof.
  intros H. revert a. induction H as [| l ls [Vl Sl] H IH]; intros a Va Sa;
    cbn [fold_left]; [split; assumption |].
  apply IH; [apply index_union_valid | apply index_union_sorted]; assumption.
Qed.
End UnionFacts.

Section ReindexFacts.

Lemma has_duplicates_sorted (l : DatetimeIndex) :
  StronglySorted time_lt l -> has_duplicates l = false.
Proof.
  intros H. induction H as [| x l Hl IH Hx]; [reflexivity |].
  cbn [has_duplicates]. rewrite IH, orb_false_r.
  apply not_true_is_false. intros E. apply existsb_exists in E.
  destruct E as [y [Hy E]]. rewrite Forall_forall in Hx.
  rewrite (time_lt_neq _ _ (Hx y Hy)) in E. discriminate E.
Qed.

Lemma lookup_cons_other (e : Timestamp * float) (g : Series) (t : Timestamp) :
  ts_eqb (fst e) t = false -> lookup (e :: g) t = lookup g t.
Proof. intros H. unfold lookup. cbn [find]. rewrite H. reflexivity. Qed.

Lemma lookup_cons_same (e : Timestamp * float) (g : Series) :
  lookup (e :: g) (fst e) = snd e.
Proof. unfold lookup. cbn [find]. rewrite ts_eqb_refl. reflexivity. Qed.

(** Along its own labels, a series without repeated labels has its own
    values. *)
Lemma lookup_self (g : Series) :
  StronglySorted time_lt (map fst g) -> map (lookup g) (map fst g) = map snd g.
Proof.
  induction g as [| e g IH]; intros H; [reflexivity |].
  cbn [map] in *. inversion H as [| ? ? Hs Hx]; subst.
  rewrite lookup_cons_same. f_equal.
  rewrite <- (IH Hs). apply map_ext_in. intros t Ht.
  apply lookup_cons_other, time_lt_neq.
  rewrite Forall_forall in Hx. apply Hx, Ht.
Qed.

Lemma reindex_sorted (g : Series) (idx : DatetimeIndex) :
  StronglySorted time_lt (map fst g) ->
  reindex g idx = Ok (map (lookup g) idx).
Proof.
  intros H. unfold reindex.
  destruct (index_eqb (map fst g) idx) eqn:E.
  - apply index_eqb_eq in E. rewrite <- E, lookup_self by exact H. reflexivity.
  - rewrite has_duplicates_sorted by exact H. reflexivity.
Qed.

Lemma lookup_absent (g : Series) (t : Timestamp) :
  ~ In t (map fst g) -> lookup g t = PrimFloat.nan.
Proof.
  intros H. unfold lookup.
  destruct (find (fun e => ts_eqb (fst e) t) g) as [e |] eqn:E; [| reflexivity].
  apply find_some in E. destruct E as [He E]. apply ts_eqb_eq in E.
  exfalso. apply H. rewrite <- E. apply in_map, He.
Qed.
End ReindexFacts.

Section TableFacts.
Context {I C A : Type}.

Lemma transpose_rows_nil (idx : list I) :
  transpose_rows (List.length idx) (@nil (list A)) = map (fun _ => []) idx.
Proof.
  cbn [transpose_rows]. induction idx as [| t idx IH]; [reflexivity |].
  cbn [List.length repeat map]. rewrite IH. reflexivity.
Qed.

(** Laying columns side by side: the cell at a row and a column is the
    column's value at the row. *)
Lemma transpose_rows_cells (f : C -> I -> A) (cols : list C) (idx : list I) :
  transpose_rows (List.length idx) (map (fun c => map (f c) idx) cols) =
  map (fun t => map (fun c => f c t) cols) idx.
Proof.
  induction cols as [| c cols IH].
  - apply transpose_rows_nil.
  - cbn [map transpose_rows]. rewrite IH. clear IH.
    induction idx as [| t idx IH]; [reflexivity |].
    cbn [map zip_cons]. rewrite IH. reflexivity.
Qed.
End TableFacts.

Section ConcatFacts.

(** Groups in time order are laid side by side along the union of their
    labels, each cell looked up in its group. *)
Lemma concat_axis1_sorted (y : Z) (g : Series) (rest : list (Z * Series)) :
  Forall (fun p => Forall (fun t => valid_fields t = true) (map fst (snd p)) /\
                   StronglySorted time_lt (map fst (snd p))) ((y, g) :: rest) ->
  let idx := fold_left index_union (map (fun p => map fst (snd p)) rest) (map fst g) in
  concat_axis1 ((y, g) :: rest) =
    Ok (mkFrame idx (map fst ((y, g) :: rest))
                (map (fun t => map (fun p => lookup (snd p) t) ((y, g) :: rest)) idx)).
Proof.
  intros H idx. unfold concat_axis1. fold idx.
  rewrite (mapM_ok (fun p => reindex (snd p) idx)
                   (fun p => map (lookup (snd p)) idx)).
  - cbn [bind]. rewrite (transpose_rows_cells (fun p t => lookup (snd p) t)).
    reflexivity.
  - intros p Hp. rewrite Forall_forall in H. apply reindex_sorted, (H p Hp).
Qed.
End ConcatFacts.

(** ** The yearly table of a series in time order *)

Section YearlyTable.

Lemma sorted_last {A : Type} (R : A -> A -> Prop) (l : list A) (d x : A) :
  StronglySorted R l -> In x l -> x = last l d \/ R x (last l d).
Proof.
  intros H. induction H as [| a l Hl IH Ha]; intros Hx; [contradiction |].
  destruct l as [| b l'].
  - destruct Hx as [<- | []]. left. reflexivity.
  - change (last (a :: b :: l') d) with (last (b :: l') d).
    destruct Hx as [<- | Hx]; [| apply IH, Hx].
    right. rewrite Forall_forall in Ha. apply Ha, last_in. discriminate.
Qed.

Lemma last_bin_year_ge (t : Timestamp) : year t <= last_bin_year t.
Proof. unfold last_bin_year. destruct (_ && _); lia. Qed.

Variables (e : Timestamp * float) (s' : Series).
Local Abbreviation s := (e :: s').

Hypothesis s_valid : forall x, In x s -> valid_fields (fst x) = true.
Hypothesis s_order : StronglySorted sec_lt (map fst s).

Local Abbreviation first_year := (year (fst e)).
Local Abbreviation last_year := (last_bin_year (fst (last s e))).

(** Every entry lies between the years of the first group and the
    last. *)
Lemma ordered_years (x : Timestamp * float) :
  In x s -> first_year <= year (fst x) <= last_year.
Proof.
  intros Hx. pose proof (last_bin_year_ge (fst (last s e))) as Hbin.
  cut (first_year <= year (fst x) <= year (fst (last s e))); [lia |].
  split.
  - pose proof s_order as Ho. cbn [map] in Ho.
    inversion Ho as [| ? ? _ Ha]. destruct Hx as [<- | Hx]; [lia |].
    apply sec_lt_year;
      [apply s_valid; left; reflexivity | apply s_valid; right; exact Hx |].
    rewrite Forall_forall in Ha. apply Ha, in_map, Hx.
  - destruct (sorted_last sec_lt (map fst s) (fst e) (fst x) s_order
                          (in_map fst _ _ Hx)) as [H | H];
      rewrite last_map in H.
    + rewrite H. lia.
    + apply sec_lt_year; [apply s_valid, Hx | | exact H].
      apply s_valid, last_in. discriminate.
Qed.

Lemma years_between_in (y : Z) :
  In y (years_between first_year last_year) <-> first_year <= y <= last_year.
Proof.
  change (years_between first_year last_year)
    with (zseq first_year (Z.to_nat (last_year - first_year + 1))).
  pose proof (ordered_years e (or_introl eq_refl)).
  rewrite in_zseq. lia.
Qed.

Lemma years_between_cons :
  exists ys, years_between first_year last_year = first_year :: ys.
Proof.
  pose proof (ordered_years e (or_introl eq_refl)) as H.
  change (years_between first_year last_year)
    with (zseq first_year (Z.to_nat (last_year - first_year + 1))).
  destruct (Z.to_nat (last_year - first_year + 1)) as [| k] eqn:E; [lia |].
  rewrite zseq_cons. eexists. reflexivity.
Qed.

Hypothesis s_fit : edges_fit s = true.

(** The yearly table of a series in time order that the grouper takes.
    Its columns are the years from the first entry's to the last bin's;
    its rows are the labels of the entries in the year 2000, in time
    order and none twice; the cell of a row and a year is the value of
    that year's entry under the row's label, NaN when the year has
    none. *)
Lemma group_yearly_df_ordered :
  exists idx,
    group_yearly_df s =
      Ok (mkFrame idx (years_between first_year last_year)
                  (map (fun t =>
                          map (fun y => lookup (year_group s y) t)
                              (years_between first_year last_year))
                       idx)) /\
    Forall (fun t => valid_fields t = true) idx /\
    StronglySorted time_lt idx /\
    (forall t, In t idx <-> exists x, In x s /\ t = in_year 2000 (fst x)).
Proof.
  unfold group_yearly_df, iter_groupby_year.
  rewrite (ordered_sort_index s s_valid s_order), s_fit. cbn [bind].
  rewrite (ordered_groupby_year s s_valid s_order e s' eq_refl).
  set (ys := years_between first_year last_year).
  rewrite (mapM_map_ok (fun g => gry <- rekey_2000 (snd g) ;; Ok (fst g, gry))
                       (fun y => (y, filter (year_is y) s))
                       (fun y => (y, year_group s y))).
  2:{ intros y _. cbn [fst snd]. rewrite rekey_2000_ok; [reflexivity |].
      intros x Hx. apply filter_In in Hx. apply s_valid, Hx. }
  cbn [bind].
  assert (Hgroups : Forall
            (fun p : Z * Series =>
               Forall (fun t => valid_fields t = true) (map fst (snd p)) /\
               StronglySorted time_lt (map fst (snd p)))
            (map (fun y => (y, year_group s y)) ys)).
  { apply Forall_forall. intros p Hp. apply in_map_iff in Hp.
    destruct Hp as [y [<- _]]. cbn [snd]. split.
    - apply Forall_forall. intros t Ht.
      apply (year_group_valid s s_valid y t Ht).
    - apply (year_group_sorted s s_order y). }
  destruct years_between_cons as [ys' Eys]. fold ys in Eys.
  revert Hgroups. rewrite Eys. cbn [map]. intros Hgroups.
  pose proof (concat_axis1_sorted _ _ _ Hgroups) as Hc. cbv zeta in Hc.
  rewrite Hc. clear Hc.
  set (idx := fold_left index_union
                (map (fun p : Z * Series => map fst (snd p))
                     (map (fun y => (y, year_group s y)) ys'))
                (map fst (year_group s first_year))).
  exists idx. split; [| split; [| split]].
  - f_equal. f_equal.
    + cbn [map fst]. f_equal. rewrite map_map. cbn [fst]. apply map_id.
    + apply map_ext. intros t. cbn [map snd]. f_equal.
      rewrite map_map. reflexivity.
  - inversion Hgroups as [| ? ? [Hv Hs] Hrest]; subst.
    apply fold_union_sorted; [| exact Hv | exact Hs].
    apply Forall_forall. intros l Hl. apply in_map_iff in Hl.
    destruct Hl as [p [<- Hp]]. rewrite Forall_forall in Hrest. apply Hrest, Hp.
  - inversion Hgroups as [| ? ? [Hv Hs] Hrest]; subst.
    apply fold_union_sorted; [| exact Hv | exact Hs].
    apply Forall_forall. intros l Hl. apply in_map_iff in Hl.
    destruct Hl as [p [<- Hp]]. rewrite Forall_forall in Hrest. apply Hrest, Hp.
  - intros t. unfold idx. rewrite fold_union_in. split.
    + assert (Hg : forall y, In t (map fst (year_group s y)) ->
                     exists x, In x s /\ t = in_year 2000 (fst x)).
      { intros y Ht. unfold year_group in Ht. rewrite map_map in Ht.
        apply in_map_iff in Ht. destruct Ht as [x [<- Hx]].
        apply filter_In in Hx. exists x. split; [apply Hx | reflexivity]. }
      intros [H | [l [Hl H]]]; [apply (Hg _ H) |].
      rewrite map_map in Hl. apply in_map_iff in Hl.
      destruct Hl as [y [<- _]]. cbn [snd] in H. apply (Hg _ H).
    + intros [x [Hx ->]].
      assert (Hy : In (year (fst x)) ys).
      { apply years_between_in, ordered_years, Hx. }
      assert (Ht : In (in_year 2000 (fst x)) (map fst (year_group s (year (fst x))))).
      { unfold year_group. rewrite map_map. apply in_map_iff.
        exists x. split; [reflexivity |]. apply filter_In. split; [exact Hx |].
        unfold year_is. apply Z.eqb_refl. }
      rewrite Eys in Hy. destruct Hy as [Hy | Hy].
      * left. rewrite Hy. exact Ht.
      * right. exists (map fst (year_group s (year (fst x)))).
        split; [| exact Ht]. rewrite map_map. cbn [snd].
        apply in_map_iff. exists (year (fst x)). split; [reflexivity | exact Hy].
Qed.
End YearlyTable.

(** ** The round trip of a series in time order *)

Section ColumnFacts.

Lemma dropna_cons (x : Timestamp * float) (l : Series) :
  dropna (x :: l) = if PrimFloat.is_nan (snd x) then dropna l else x :: dropna l.
Proof.
  unfold dropna. cbn [filter]. destruct (PrimFloat.is_nan (snd x)); reflexivity.
Qed.

Lemma dropna_map (f : Timestamp -> Timestamp) (l : Series) :
  dropna (map (fun x => (f (fst x), snd x)) l) =
  map (fun x => (f (fst x), snd x)) (dropna l).
Proof.
  induction l as [| x l IH]; [reflexivity |].
  cbn [map]. rewrite !dropna_cons. cbn [snd].
  destruct (PrimFloat.is_nan (snd x)); cbn [map]; rewrite IH; reflexivity.
Qed.

Lemma lookup_present (g : Series) (t : Timestamp) :
  PrimFloat.is_nan (lookup g t) = false -> exists x, In x g /\ fst x = t.
Proof.
  unfold lookup.
  destruct (find (fun e => ts_eqb (fst e) t) g) as [x |] eqn:E;
    [| intros H; discriminate H].
  intros _. apply find_some in E. destruct E as [Hx E].
  exists x. split; [exact Hx | apply ts_eqb_eq, E].
Qed.

Lemma time_lt_irrefl (t : Timestamp) : ~ time_lt t t.
Proof. unfold time_lt. lia. Qed.

(** Down the rows of a column: the cells that hold a value are the
    group's entries, in the group's order. *)
Lemma column_walk (idx : DatetimeIndex) (g : Series) :
  StronglySorted time_lt idx ->
  StronglySorted time_lt (map fst g) ->
  (forall t, In t (map fst g) -> In t idx) ->
  dropna (map (fun t => (t, lookup g t)) idx) = dropna g.
Proof.
  intros Hidx. revert g.
  induction Hidx as [| t idx Hs IH Ht]; intros g Hg Hsub.
  - destruct g as [| x g]; [reflexivity |].
    exfalso. apply (Hsub (fst x)). left. reflexivity.
  - rewrite Forall_forall in Ht.
    cbn [map]. rewrite dropna_cons. cbn [snd].
    destruct g as [| [tx v] g].
    + change (PrimFloat.is_nan (lookup [] t)) with true. cbv iota.
      apply IH; [constructor | intros ? []].
    + cbn [map fst] in Hg, Hsub. inversion Hg as [| ? ? Hg' Hx]; subst.
      rewrite Forall_forall in Hx.
      destruct (ts_eqb tx t) eqn:E.
      * apply ts_eqb_eq in E. subst tx.
        replace (lookup ((t, v) :: g) t) with v
          by (unfold lookup; cbn [find fst snd]; rewrite ts_eqb_refl; reflexivity).
        rewrite dropna_cons. cbn [snd].
        assert (Hrest : dropna (map (fun t' => (t', lookup ((t, v) :: g) t')) idx) =
                        dropna g).
        { rewrite <- (IH g Hg').
          - f_equal. apply map_ext_in. intros t' Ht'. f_equal.
            apply lookup_cons_other. cbn [fst]. apply time_lt_neq, Ht, Ht'.
          - intros t' Ht'. destruct (Hsub t' (or_intror Ht')) as [<- | H];
              [| exact H].
            exfalso. apply (time_lt_irrefl t), Hx, Ht'. }
        rewrite Hrest. reflexivity.
      * assert (Htx : In tx idx).
        { destruct (Hsub tx (or_introl eq_refl)) as [<- | H]; [| exact H].
          rewrite ts_eqb_refl in E. discriminate E. }
        assert (Habs : ~ In t (map fst ((tx, v) :: g))).
        { cbn [map fst]. intros [<- | H].
          - rewrite ts_eqb_refl in E. discriminate E.
          - apply (time_lt_irrefl t).
            eapply time_lt_trans; [apply Ht, Htx | apply Hx, H]. }
        rewrite (lookup_absent _ _ Habs).
        change (PrimFloat.is_nan PrimFloat.nan) with true. cbv iota.
        apply IH; [exact Hg |].
        intros t' Ht'. destruct (Hsub t' Ht') as [<- | H]; [| exact H].
        contradiction.
Qed.

(** One column's cells in flattening order: the cells that stay are
    those that hold a value, read under the column's year. *)
Lemma column_cells (y : Z) (l : Series) :
  (forall x, In x l -> PrimFloat.is_nan (snd x) = false ->
             kept_label (y, fst x) = true) ->
  dropna (map cell_entry (filter kept_cell (map (fun x => (y, fst x, snd x)) l))) =
  map (fun x => (in_year y (fst x), snd x)) (dropna l).
Proof.
  induction l as [| x l IH]; intros H; [reflexivity |].
  assert (Hl : forall x', In x' l -> PrimFloat.is_nan (snd x') = false ->
                          kept_label (y, fst x') = true).
  { intros x' Hx'. apply H. right. exact Hx'. }
  specialize (IH Hl). specialize (H x (or_introl eq_refl)).
  cbn [map filter]. unfold kept_cell at 1. cbn [fst].
  rewrite (dropna_cons x l).
  destruct (PrimFloat.is_nan (snd x)) eqn:En.
  - destruct (kept_label (y, fst x)); [| exact IH].
    cbn [map]. rewrite dropna_cons. unfold cell_entry at 1. cbn [fst snd].
    rewrite En. exact IH.
  - rewrite (H eq_refl). cbn [map]. rewrite dropna_cons.
    unfold cell_entry at 1. cbn [fst snd]. rewrite En, IH. reflexivity.
Qed.

Lemma feb29_leap (t : Timestamp) :
  valid_fields t = true -> is_feb29 t = true -> isleap (year t) = true.
Proof.
  unfold valid_fields, days_in_month, is_feb29. intros Hv Hf.
  repeat (apply andb_prop in Hv; destruct Hv as [Hv ?]).
  apply andb_prop in Hf. destruct Hf as [Hm Hd].
  rewrite Hm in *. destruct (isleap (year t)); [reflexivity |].
  rewrite ?Z.leb_le, ?Z.eqb_eq in *. lia.
Qed.

Lemma combine_app_same {A B : Type} (l1 l2 : list A) (v1 v2 : list B) :
  List.length l1 = List.length v1 ->
  combine (l1 ++ l2) (v1 ++ v2) = (combine l1 v1 ++ combine l2 v2)%list.
Proof.
  revert v1. induction l1 as [| a l1 IH]; intros [| b v1] H; try discriminate H;
    [reflexivity |].
  cbn [app combine]. rewrite IH by (simpl in H; lia). reflexivity.
Qed.

(** The cells of a table given by columns, in flattening order. *)
Lemma flat_cells_columns (idx : DatetimeIndex) (ys : list Z)
      (cell : Z -> Timestamp -> float) :
  combine (flat_map (fun c => map (pair c) idx) ys)
          (List.concat (map (fun y => map (cell y) idx) ys)) =
  flat_map (fun y => map (fun t => (y, t, cell y t)) idx) ys.
Proof.
  induction ys as [| y ys IH]; [reflexivity |].
  cbn [flat_map map List.concat].
  rewrite combine_app_same by (rewrite !length_map; reflexivity).
  rewrite IH. f_equal. clear IH.
  induction idx as [| t idx IH]; [reflexivity |].
  cbn [map combine]. rewrite IH. reflexivity.
Qed.

Lemma flat_map_pointwise {A B : Type} (f g : A -> list B) (l : list A) :
  (forall a, In a l -> f a = g a) -> flat_map f l = flat_map g l.
Proof.
  induction l as [| a l IH]; intros H; [reflexivity |].
  cbn [flat_map]. rewrite (H a (or_introl eq_refl)), IH; [reflexivity |].
  intros x Hx. apply H. right. exact Hx.
Qed.

Lemma flattened_by_column {A : Type} (cells : A -> list (Z * Timestamp * float))
      (l : list A) :
  dropna (map cell_entry (filter kept_cell (flat_map cells l))) =
  flat_map (fun a => dropna (map cell_entry (filter kept_cell (cells a)))) l.
Proof.
  induction l as [| a l IH]; [reflexivity |].
  cbn [flat_map]. rewrite filter_app, map_app. unfold dropna in *.
  rewrite filter_app, IH. reflexivity.
Qed.

Lemma dropna_by_year (ys : list Z) (f : Timestamp * float -> Timestamp * float)
      (groups : Z -> Series) :
  flat_map (fun y => dropna (map f (groups y))) ys =
  dropna (map f (flat_map groups ys)).
Proof.
  induction ys as [| y ys IH]; [reflexivity |].
  cbn [flat_map]. rewrite map_app. unfold dropna in *.
  rewrite filter_app, IH. reflexivity.
Qed.
End ColumnFacts.

Section PartitionFacts.

Lemma StronglySorted_of_map {A B : Type} (R : B -> B -> Prop) (Q : A -> A -> Prop)
      (f : A -> B) (l : list A) :
  (forall a b, In a l -> In b l -> R (f a) (f b) -> Q a b) ->
  StronglySorted R (map f l) -> StronglySorted Q l.
Proof.
  induction l as [| a l IH]; intros Hf H; [constructor |].
  cbn [map] in H. inversion H as [| ? ? Hl Ha]; subst. constructor.
  - apply IH; [| exact Hl]. intros x y Hx Hy. apply Hf; right; assumption.
  - rewrite Forall_forall in *. intros x Hx.
    apply Hf; [left; reflexivity | right; exact Hx |]. apply Ha, in_map, Hx.
Qed.

(** In a series ordered by year, the entries of the lowest year come
    first. *)
Lemma split_first_year (lo : Z) (l : Series) :
  StronglySorted year_le l ->
  (forall x, In x l -> lo <= year (fst x)) ->
  l = (filter (year_is lo) l ++ filter (fun x => negb (year_is lo x)) l)%list.
Proof.
  intros H. induction H as [| x l Hl IH Hx]; intros Hlo; [reflexivity |].
  cbn [filter]. change (year_is lo x) with (year (fst x) =? lo).
  destruct (Z.eqb_spec (year (fst x)) lo) as [E | E]; cbn [negb app].
  - f_equal. apply IH. intros x' Hx'. apply Hlo. right. exact Hx'.
  - rewrite Forall_forall in Hx.
    pose proof (Hlo x (or_introl eq_refl)) as Hxlo.
    rewrite filter_none, filter_all; [reflexivity | |].
    + intros x' Hx'. unfold year_is. specialize (Hx x' Hx'). unfold year_le in Hx.
      apply negb_true_iff, Z.eqb_neq. lia.
    + intros x' Hx'. unfold year_is. specialize (Hx x' Hx'). unfold year_le in Hx.
      apply Z.eqb_neq. lia.
Qed.

(** Year by year, the groups make up the series. *)
Lemma partition_years (n : nat) (lo : Z) (l : Series) :
  StronglySorted year_le l ->
  (forall x, In x l -> lo <= year (fst x) < lo + Z.of_nat n) ->
  flat_map (fun y => filter (year_is y) l) (zseq lo n) = l.
Proof.
  revert lo l. induction n as [| n IH]; intros lo l Hs Hb.
  - destruct l as [| x l]; [reflexivity |].
    specialize (Hb x (or_introl eq_refl)). lia.
  - rewrite zseq_cons. cbn [flat_map].
    set (rest := filter (fun x => negb (year_is lo x)) l).
    assert (Hsplit : l = (filter (year_is lo) l ++ rest)%list).
    { apply split_first_year; [exact Hs |]. intros x Hx. apply Hb, Hx. }
    rewrite (flat_map_pointwise _ (fun y => filter (year_is y) rest)).
    + rewrite IH; [symmetry; exact Hsplit | apply StronglySorted_filter, Hs |].
      intros x Hx. apply filter_In in Hx. destruct Hx as [Hx Hne].
      specialize (Hb x Hx). unfold year_is in Hne.
      apply negb_true_iff, Z.eqb_neq in Hne. lia.
    + intros y Hy. apply in_zseq in Hy.
      rewrite Hsplit at 1. rewrite filter_app, filter_none; [reflexivity |].
      intros x Hx. apply filter_In in Hx. destruct Hx as [_ Hx].
      unfold year_is in *. apply Z.eqb_eq in Hx. apply Z.eqb_neq. lia.
Qed.
End PartitionFacts.

Section OrderedRoundTrip.

Variables (e : Timestamp * float) (s' : Series).
Local Abbreviation s := (e :: s').

Hypothesis s_valid : forall x, In x s -> valid_fields (fst x) = true.
Hypothesis s_order : StronglySorted sec_lt (map fst s).

Local Abbreviation years :=
  (years_between (year (fst e)) (last_bin_year (fst (last s e)))).

Lemma ordered_partition : flat_map (fun y => filter (year_is y) s) years = s.
Proof.
  change years
    with (zseq (year (fst e))
               (Z.to_nat (last_bin_year (fst (last s e)) - year (fst e) + 1))).
  apply partition_years.
  - apply (StronglySorted_of_map sec_lt year_le fst); [| exact s_order].
    intros a b Ha Hb. apply sec_lt_year; apply s_valid; assumption.
  - intros x Hx. pose proof (ordered_years e s' s_valid s_order x Hx). lia.
Qed.

(** One column of the yearly table, flattened: the entries of its year
    that hold a value, to the second. *)
Lemma column_round_trip (idx : DatetimeIndex) (y : Z) :
  StronglySorted time_lt idx ->
  (forall x, In x s -> In (in_year 2000 (fst x)) idx) ->
  dropna (map cell_entry
              (filter kept_cell
                      (map (fun t => (y, t, lookup (year_group s y) t)) idx))) =
  dropna (map second_entry (filter (year_is y) s)).
Proof.
  intros Hidx Hsub.
  assert (Hgroup : forall x, In x (year_group s y) ->
                     exists x0, In x0 s /\ year (fst x0) = y /\ x = rekeyed x0).
  { intros x Hx. unfold year_group in Hx. apply in_map_iff in Hx.
    destruct Hx as [x0 [<- Hx0]]. apply filter_In in Hx0.
    destruct Hx0 as [Hx0 Hy]. exists x0. repeat split; [exact Hx0 |].
    apply Z.eqb_eq, Hy. }
  replace (map (fun t => (y, t, lookup (year_group s y) t)) idx)
    with (map (fun x : Timestamp * float => (y, fst x, snd x))
              (map (fun t => (t, lookup (year_group s y) t)) idx))
    by (rewrite map_map; reflexivity).
  rewrite column_cells.
  - rewrite column_walk; [| exact Hidx | apply (year_group_sorted s s_order) |].
    + unfold year_group.
      change (map rekeyed (filter (year_is y) s))
        with (map (fun x : Timestamp * float => (in_year 2000 (fst x), snd x))
                  (filter (year_is y) s)).
      rewrite dropna_map, map_map. cbn [fst snd].
      change (map second_entry (filter (year_is y) s))
        with (map (fun x : Timestamp * float => (to_second (fst x), snd x))
                  (filter (year_is y) s)).
      rewrite dropna_map. apply map_ext_in. intros x Hx.
      apply filter_In in Hx. destruct Hx as [Hx _].
      apply filter_In in Hx. destruct Hx as [_ Hy]. apply Z.eqb_eq in Hy.
      unfold to_second, in_year. cbn [month day hour minute second].
      rewrite Hy. reflexivity.
    + intros t Ht. apply in_map_iff in Ht. destruct Ht as [x [<- Hx]].
      destruct (Hgroup x Hx) as [x0 [Hx0 [_ ->]]]. apply Hsub, Hx0.
  - intros x Hx Hnan. apply in_map_iff in Hx. destruct Hx as [t [<- _]].
    cbn [fst snd] in *. apply lookup_present in Hnan.
    destruct Hnan as [x [Hx <-]].
    destruct (Hgroup x Hx) as [x0 [Hx0 [Hy ->]]].
    unfold kept_label, rekeyed. cbn [fst snd].
    change (is_feb29 (in_year 2000 (fst x0))) with (is_feb29 (fst x0)).
    destruct (is_feb29 (fst x0)) eqn:Ef; [| reflexivity].
    rewrite <- Hy, (feb29_leap _ (s_valid x0 Hx0) Ef). reflexivity.
Qed.

(** The yearly table of a series in time order, flattened: the entries
    that hold a value, to the second and in their order. *)
Lemma flattened_ordered (idx : DatetimeIndex) :
  StronglySorted time_lt idx ->
  (forall x, In x s -> In (in_year 2000 (fst x)) idx) ->
  flattened (mkFrame idx years
                     (map (fun t => map (fun y => lookup (year_group s y) t) years)
                          idx)) =
  dropna (map second_entry s).
Proof.
  intros Hidx Hsub. unfold flattened, flat_cells, transpose, flatten.
  cbn [index columns values].
  pose proof (transpose_rows_cells (fun t y => lookup (year_group s y) t) idx years)
    as Ht.
  cbv beta in Ht. rewrite Ht. clear Ht.
  rewrite (flat_cells_columns idx years (fun y t => lookup (year_group s y) t)).
  rewrite flattened_by_column.
  rewrite (flat_map_pointwise _
             (fun y => dropna (map second_entry (filter (year_is y) s)))).
  - rewrite dropna_by_year, ordered_partition. reflexivity.
  - intros y _. apply column_round_trip; assumption.
Qed.
End OrderedRoundTrip.


(** ** The edges of the bins *)

Section EdgeFacts.

Lemma last_bin_year_cases (t : Timestamp) :
  last_bin_year t = year t \/
  (last_bin_year t = year t + 1 /\ (month t =? 12) && (day t =? 31) = true).
Proof.
  unfold last_bin_year.
  destruct (month t =? 12); destruct (day t =? 31); cbn [andb];
    try (left; reflexivity).
  destruct (_ && _); [right; split; reflexivity | left; reflexivity].
Qed.

(** Where the edges fit, the columns of the table are years that a
    timestamp can lie in. *)
Lemma edges_fit_years (e : Timestamp * float) (s' : Series) :
  edges_fit (e :: s') = true ->
  1678 <= year (fst e) /\ last_bin_year (fst (last (e :: s') e)) <= 2261.
Proof.
  unfold edges_fit. set (t := fst (last (e :: s') e)).
  intros H. apply andb_prop in H. destruct H as [H1 H2].
  unfold in_bounds, ts_leb in H1, H2.
  apply andb_prop in H1, H2. destruct H1 as [H1 _], H2 as [_ H2].
  apply Z.leb_le in H1, H2. split.
  - unfold ts_key, first_edge in H1.
    cbn [year month day hour minute second nanosecond ts_min] in H1. lia.
  - unfold last_edge in H2.
    destruct (last_bin_year_cases t) as [-> | [-> Hd]].
    + destruct ((month t =? 12) && (day t =? 31)); unfold ts_key in H2;
        cbn [year month day hour minute second nanosecond ts_max] in H2; lia.
    + rewrite Hd in H2. unfold ts_key in H2.
      cbn [year month day hour minute second nanosecond ts_max] in H2. lia.
Qed.

(** Between 1678-01-01 and 2261-12-30 the edges fit. *)
Lemma groupable_edges_fit (e : Timestamp * float) (s' : Series) :
  valid_fields (fst e) = true ->
  valid_fields (fst (last (e :: s') e)) = true ->
  groupable (fst e) = true ->
  groupable (fst (last (e :: s') e)) = true ->
  edges_fit (e :: s') = true.
Proof.
  unfold edges_fit. set (t := fst (last (e :: s') e)).
  intros Hv1 Hv2 Hg1 Hg2. apply valid_fields_bounds in Hv1, Hv2.
  unfold groupable in Hg1, Hg2. apply andb_prop in Hg1, Hg2.
  destruct Hg1 as [Hlo1 Hhi1], Hg2 as [Hlo2 Hhi2].
  apply Z.leb_le in Hlo1, Hlo2. apply Z.ltb_lt in Hhi1, Hhi2.
  unfold ts_key in Hhi1, Hhi2.
  cbn [year month day hour minute second nanosecond] in Hhi1, Hhi2.
  unfold in_bounds, ts_leb, first_edge, last_edge.
  rewrite !andb_true_iff, !Z.leb_le.
  destruct (Z.eqb_spec (month t) 12) as [Em | Em];
    destruct (Z.eqb_spec (day t) 31) as [Ed | Ed]; cbn [andb];
    unfold ts_key;
    cbn [year month day hour minute second nanosecond ts_min ts_max];
    repeat split; lia.
Qed.


End EdgeFacts.

(** ** The values of the table *)

Section TableValues.

Lemma dropna_snd (l : Series) : map snd (dropna l) = filter not_nan (map snd l).
Proof.
  induction l as [| x l IH]; [reflexivity |].
  rewrite dropna_cons. cbn [map filter]. unfold not_nan at 1.
  destruct (PrimFloat.is_nan (snd x)); cbn [negb map]; rewrite IH; reflexivity.
Qed.

Lemma filter_concat_map {A B : Type} (p : B -> bool) (f : A -> list B)
      (l : list A) :
  filter p (List.concat (map f l)) = flat_map (fun a => filter p (f a)) l.
Proof.
  induction l as [| a l IH]; [reflexivity |].
  cbn [map List.concat flat_map]. rewrite filter_app, IH. reflexivity.
Qed.

Lemma filter_map_by_year (ys : list Z) (groups : Z -> Series) :
  flat_map (fun y => filter not_nan (map snd (groups y))) ys =
  filter not_nan (map snd (flat_map groups ys)).
Proof.
  induction ys as [| y ys IH]; [reflexivity |].
  cbn [flat_map]. rewrite map_app, filter_app, IH. reflexivity.
Qed.

Variables (e : Timestamp * float) (s' : Series).
Local Abbreviation s := (e :: s').

Hypothesis s_valid : forall x, In x s -> valid_fields (fst x) = true.
Hypothesis s_order : StronglySorted sec_lt (map fst s).

Local Abbreviation years :=
  (years_between (year (fst e)) (last_bin_year (fst (last s e)))).

(** Column after column, the cells of the yearly table that hold a value
    are the values of the series, in its order. *)
Lemma table_values (idx : DatetimeIndex) :
  StronglySorted time_lt idx ->
  (forall x, In x s -> In (in_year 2000 (fst x)) idx) ->
  filter not_nan
         (flatten (values (transpose
            (mkFrame idx years
                     (map (fun t => map (fun y => lookup (year_group s y) t) years)
                          idx))))) =
  filter not_nan (map snd s).
Proof.
  intros Hidx Hsub. unfold transpose, flatten. cbn [index columns values].
  pose proof (transpose_rows_cells (fun t y => lookup (year_group s y) t) idx years)
    as Ht.
  cbv beta in Ht. rewrite Ht. clear Ht.
  rewrite (filter_concat_map not_nan
             (fun y => map (fun t => lookup (year_group s y) t) idx)).
  rewrite (flat_map_pointwise _
             (fun y => filter not_nan (map snd (filter (year_is y) s)))).
  - rewrite filter_map_by_year, (ordered_partition e s' s_valid s_order).
    reflexivity.
  - intros y _.
    replace (map (fun t => lookup (year_group s y) t) idx)
      with (map snd (map (fun t => (t, lookup (year_group s y) t)) idx))
      by (rewrite map_map; reflexivity).
    rewrite <- dropna_snd, column_walk;
      [| exact Hidx | apply (year_group_sorted s s_order) |].
    + rewrite dropna_snd. unfold year_group. rewrite map_map. reflexivity.
    + intros t Ht. unfold year_group in Ht. rewrite map_map in Ht.
      apply in_map_iff in Ht. destruct Ht as [x [<- Hx]].
      apply filter_In in Hx. apply Hsub, Hx.
Qed.
End TableValues.

Section TimeOrder.

Lemma time_ordered (l : Series) :
  forallb valid_timestamp (map fst l) = true ->
  seconds_increasing (map fst l) = true ->
  (forall x, In x l -> valid_fields (fst x) = true) /\
  StronglySorted sec_lt (map fst l).
Proof.
  intros Hv Hs. split; [| apply seconds_increasing_sorted, Hs].
  intros x Hx. rewrite forallb_forall in Hv.
  specialize (Hv (fst x) (in_map fst _ _ Hx)).
  unfold valid_timestamp in Hv. apply andb_prop in Hv. apply Hv.
Qed.

Lemma all_groupable (l : Series) (x : Timestamp * float) :
  forallb groupable (map fst l) = true -> In x l -> groupable (fst x) = true.
Proof.
  intros H Hx. rewrite forallb_forall in H. apply H, in_map, Hx.
Qed.

(** The round trip of a series in time order that the grouper takes:
    the table comes back, its columns are consecutive years, and
    flattening it returns the entries that hold a value, to the second
    and in their order: the cells of the table that hold a value, column
    after column. *)
Lemma ordered_round_trip (s : Series) :
  s <> [] ->
  (forall x, In x s -> valid_fields (fst x) = true) ->
  StronglySorted sec_lt (map fst s) ->
  edges_fit s = true ->
  exists df,
    group_yearly_df s = Ok df /\
    get_data_series df = Ok (dropna (map second_entry s)) /\
    (exists y0 n, columns df = zseq y0 n) /\
    filter not_nan (flatten (values (transpose df))) = filter not_nan (map snd s).
Proof.
  intros Hne Hvalid Hsorted Hfit. destruct s as [| e s']; [contradiction |].
  destruct (group_yearly_df_ordered e s' Hvalid Hsorted Hfit)
    as [idx [Hg [Hiv [Hidx Hin]]]].
  assert (Hsub : forall x, In x (e :: s') -> In (in_year 2000 (fst x)) idx).
  { intros x Hx. apply Hin. exists x. split; [exact Hx | reflexivity]. }
  eexists. split; [exact Hg |]. split; [| split].
  - rewrite get_data_series_flattened.
    + f_equal. apply flattened_ordered; assumption.
    + split; cbn [values index columns].
      * apply length_map.
      * apply Forall_forall. intros r Hr. apply in_map_iff in Hr.
        destruct Hr as [t [<- _]]. apply length_map.
    + cbn [columns]. destruct (years_between_cons e s' Hvalid Hsorted) as [ys ->].
      discriminate.
    + cbn [index]. intros E. specialize (Hsub e (or_introl eq_refl)).
      rewrite E in Hsub. exact Hsub.
    + cbn [index]. rewrite Forall_forall in Hiv. exact Hiv.
    + cbn [columns]. intros c Hc.
      apply (years_between_in e s' Hvalid Hsorted) in Hc.
      pose proof (edges_fit_years e s' Hfit). lia.
  - cbn [columns]. eexists. eexists. reflexivity.
  - apply table_values; assumption.
Qed.

(** A series in time order between 1678-01-01 and 2261-12-30 is one
    that the grouper takes. *)
Lemma groupable_fit (s : Series) :
  (forall x, In x s -> valid_fields (fst x) = true) ->
  forallb groupable (map fst s) = true ->
  edges_fit s = true.
Proof.
  intros Hvalid Hg. destruct s as [| e s']; [reflexivity |].
  assert (Hl : In (last (e :: s') e) (e :: s')) by (apply last_in; discriminate).
  apply groupable_edges_fit.
  - apply Hvalid. left. reflexivity.
  - apply Hvalid, Hl.
  - apply (all_groupable _ _ Hg). left. reflexivity.
  - apply (all_groupable _ _ Hg), Hl.
Qed.
End TimeOrder.

(** ** Daily series over whole years *)

(** The 365 (month, day) pairs of a year, February 29 left out. *)
Definition month_days : list (Z * Z) :=
  flat_map (fun m => map (pair m) (zseq 1 (Z.to_nat (days_in_month 2001 m))))
           (zseq 1 12).

(** Every day of the year [y] but February 29, at one time of day. *)
Definition year_index (hh mm ss ns : Z) (y : Z) : DatetimeIndex :=
  map (fun md => mkTimestamp y (fst md) (snd md) hh mm ss ns) month_days.

(** The index of a daily series over [n] whole calendar years from [y0]
    on, with no February 29. *)
Definition whole_years (y0 : Z) (n : nat) (hh mm ss ns : Z) : DatetimeIndex :=
  flat_map (year_index hh mm ss ns) (zseq y0 n).

(** The calendar day after [t], at the same time of day. *)
Definition next_day (t : Timestamp) : Timestamp :=
  if day t <? days_in_month (year t) (month t) then
    mkTimestamp (year t) (month t) (day t + 1)
                (hour t) (minute t) (second t) (nanosecond t)
  else if month t <? 12 then
    mkTimestamp (year t) (month t + 1) 1
                (hour t) (minute t) (second t) (nanosecond t)
  else
    mkTimestamp (year t + 1) 1 1
                (hour t) (minute t) (second t) (nanosecond t).

(** A regular daily cadence in an index without February 29: each entry
    is the day after the one before it, or two days after it where the
    day between them is a February 29. *)
Fixpoint daily_cadence (l : DatetimeIndex) : bool :=
  match l with
  | a :: ((b :: _) as l') =>
      (ts_eqb b (next_day a) ||
       (is_feb29 (next_day a) && ts_eqb b (next_day (next_day a)))) &&
      daily_cadence l'
  | _ => true
  end.

(** The index runs from a January 1 to a December 31. *)
Definition spans_whole_years (l : DatetimeIndex) : bool :=
  match l with
  | [] => false
  | t0 :: _ =>
      (month t0 =? 1) && (day t0 =? 1) &&
      (month (last l t0) =? 12) && (day (last l t0) =? 31)
  end.

Definition no_feb29 (l : DatetimeIndex) : bool :=
  forallb (fun t => negb (is_feb29 t)) l.

Section DailyRoundTrip.

(** The next day comes later. *)
Lemma next_day_later (a : Timestamp) :
  1 <= month a <= 12 -> 1 <= day a <= 31 -> sec_lt a (next_day a).
Proof.
  intros Hm Hd. unfold sec_lt, sec_key, next_day.
  destruct (Z.ltb_spec (day a) (days_in_month (year a) (month a)));
    [| destruct (Z.ltb_spec (month a) 12)];
    cbn [year month day hour minute second]; lia.
Qed.

(** A daily cadence is a time order, at most one entry to the second. *)
Lemma daily_cadence_increasing (l : DatetimeIndex) :
  (forall t, In t l -> valid_fields t = true) ->
  daily_cadence l = true -> seconds_increasing l = true.
Proof.
  induction l as [| a l IH]; intros Hv Hd; [reflexivity |].
  destruct l as [| b l']; [reflexivity |].
  cbn [daily_cadence] in Hd. apply andb_prop in Hd. destruct Hd as [Hab Hd].
  cbn [seconds_increasing]. apply andb_true_intro. split.
  - apply Z.ltb_lt.
    destruct (valid_fields_bounds a (Hv a (or_introl eq_refl))) as [Hm [Hdy _]].
    pose proof (next_day_later a Hm Hdy) as H1.
    apply orb_prop in Hab. destruct Hab as [E | E].
    + apply ts_eqb_eq in E. subst b. exact H1.
    + apply andb_prop in E. destruct E as [Hf E]. apply ts_eqb_eq in E. subst b.
      unfold is_feb29 in Hf. apply andb_prop in Hf. destruct Hf as [Hf1 Hf2].
      apply Z.eqb_eq in Hf1, Hf2.
      assert (H2 : sec_lt (next_day a) (next_day (next_day a)))
        by (apply next_day_later; lia).
      unfold sec_lt in *. lia.
  - apply IH; [| exact Hd]. intros t Ht. apply Hv. right. exact Ht.
Qed.

(** C1: for a series [s] that spans whole calendar years (from a January
    1 to a December 31) at a regular daily cadence, has no February 29
    entry and lies between 1678 and 2260, [get_data_series(group_yearly_df(s))]
    returns the values of [s]: the yearly table comes back with
    consecutive years for its columns, the flattened series holds the
    cells of the table that hold a value, column after column, and these
    are the entries of [s] in their order under their timestamps; no
    value is lost, missing values (NaN) apart, which [dropna] removes. *)
Theorem yearly_round_trip (s : Series) :
  forallb valid_timestamp (map fst s) = true ->
  spans_whole_years (map fst s) = true ->
  daily_cadence (map fst s) = true ->
  no_feb29 (map fst s) = true ->
  forallb groupable (map fst s) = true ->
  exists df out,
    group_yearly_df s = Ok df /\
    get_data_series df = Ok out /\
    (exists y0 n, columns df = zseq y0 n) /\
    map snd out = filter not_nan (flatten (values (transpose df))) /\
    out = dropna (map (fun e => (to_second (fst e), snd e)) s) /\
    map snd out = filter not_nan (map snd s) /\
    Permutation (map snd out) (filter not_nan (map snd s)) /\
    ((forall v, In v (map snd s) -> PrimFloat.is_nan v = false) ->
     map snd out = map snd s /\ Permutation (map snd out) (map snd s)).
Proof.
  intros Hv Hsp Hd Hnf Hg.
  assert (Hvalid : forall x, In x s -> valid_fields (fst x) = true).
  { intros x Hx. rewrite forallb_forall in Hv.
    specialize (Hv (fst x) (in_map fst _ _ Hx)).
    unfold valid_timestamp in Hv. apply andb_prop in Hv. apply Hv. }
  assert (Hinc : seconds_increasing (map fst s) = true).
  { apply daily_cadence_increasing; [| exact Hd].
    intros t Ht. apply in_map_iff in Ht. destruct Ht as [x [<- Hx]].
    apply Hvalid, Hx. }
  destruct (ordered_round_trip s) as [df [H1 [H2 [H3 H4]]]].
  - intros E. rewrite E in Hsp. discriminate Hsp.
  - exact Hvalid.
  - apply seconds_increasing_sorted, Hinc.
  - apply groupable_fit; assumption.
  - assert (Hvals : map snd (dropna (map second_entry s)) =
                    filter not_nan (map snd s)).
    { rewrite dropna_snd, map_map. reflexivity. }
    exists df, (dropna (map second_entry s)).
    split; [exact H1 |]. split; [exact H2 |]. split; [exact H3 |].
    split; [rewrite H4; exact Hvals |]. split; [reflexivity |].
    split; [exact Hvals |].
    split; [rewrite Hvals; apply Permutation_refl |].
    intros Hnan. rewrite Hvals.
    rewrite filter_all; [split; [reflexivity | apply Permutation_refl] |].
    intros v Hin. unfold not_nan. rewrite (Hnan v Hin). reflexivity.
Qed.
End DailyRoundTrip.

(** A daily series at noon over the years 2001 and 2002, the value of
    each day being its position in the series. *)
Definition daily_2001_2002 : Series :=
  combine (whole_years 2001 2 12 0 0 0)
          (map (fun k => PrimFloat.of_uint63 (Uint63.of_Z (Z.of_nat k)))
               (seq 0 730)).

Lemma yearly_round_trip_witness :
  exists df out,
    group_yearly_df daily_2001_2002 = Ok df /\
    get_data_series df = Ok out /\
    map snd out = map snd daily_2001_2002.
Proof.
  destruct (yearly_round_trip daily_2001_2002) as [df [out H]].
  - vm_compute. reflexivity.
  - vm_compute. reflexivity.
  - vm_compute. reflexivity.
  - vm_compute. reflexivity.
  - vm_compute. reflexivity.
  - destruct H as [H1 [H2 [_ [_ [_ [_ [_ H8]]]]]]].
    exists df, out. split; [exact H1 |]. split; [exact H2 |]. apply H8.
    assert (Hall : forallb not_nan (map snd daily_2001_2002) = true)
      by (vm_compute; reflexivity).
    rewrite forallb_forall in Hall. intros v Hv. specialize (Hall v Hv).
    unfold not_nan in Hall. destruct (PrimFloat.is_nan v); [discriminate | reflexivity].
Defined.

(** A daily series at noon over the year 2261. *)
Definition daily_2261 : Series :=
  combine (whole_years 2261 1 12 0 0 0)
          (map (fun k => PrimFloat.of_uint63 (Uint63.of_Z (Z.of_nat k)))
               (seq 0 365)).

(** C1 as stated fails on a series that reaches into 2261: its
    timestamps are valid, it spans a whole year day by day without a
    February 29, and the grouper raises, for want of a bin edge on
    2262-12-31. *)
Lemma yearly_round_trip_fails_in_2261 :
  forallb valid_timestamp (map fst daily_2261) = true /\
  spans_whole_years (map fst daily_2261) = true /\
  daily_cadence (map fst daily_2261) = true /\
  no_feb29 (map fst daily_2261) = true /\
  group_yearly_df daily_2261 = Raise ValueError.
Proof. repeat split; vm_compute; reflexivity. Qed.

(** C10: an empty series has no year groups, and concatenating no
    frames raises [ValueError]; no empty table comes back. *)
Theorem group_yearly_df_empty :
  groupby_year [] = [] /\
  concat_axis1 [] = Raise ValueError /\
  group_yearly_df [] = Raise ValueError.
Proof. repeat split; reflexivity. Qed.

(** ** The model at work *)

Example split_blank :
  PyStr.split " " "2001-02-29 00:00:00" = ["2001-02-29"; "00:00:00"].
Proof. reflexivity. Qed.

Example split1_dash : PyStr.split1 "-" "2001-02-29" = ["2001"; "02-29"].
Proof. reflexivity. Qed.

Example split_dash : PyStr.split "-" "2001-02-29" = ["2001"; "02"; "29"].
Proof. reflexivity. Qed.

Example format_int_examples :
  PyStr.format_int 2001 = "2001" /\ PyStr.format_int 0 = "0" /\
  PyStr.format_int (-5) = "-5".
Proof. repeat split; reflexivity. Qed.

Example int_examples :
  PyStr.int "2001" = Ok 2001 /\ PyStr.int "" = Raise ValueError /\
  PyStr.int "20a1" = Raise ValueError.
Proof. repeat split; reflexivity. Qed.

Example pad2_examples : PyStr.pad2 2 = "02" /\ PyStr.pad2 29 = "29".
Proof. split; reflexivity. Qed.

Example to_datetime1_examples :
  to_datetime1 "2001-02-28 00:00:00" = Ok (mkTimestamp 2001 2 28 0 0 0 0) /\
  to_datetime1 "2001-02-29 00:00:00" = Raise ValueError /\
  to_datetime1 "2262-04-12 00:00:00" = Raise ValueError.
Proof. repeat split; reflexivity. Qed.

Example illegal_feb29_examples :
  illegal_feb29 "2001-02-29 00:00:00" = Ok true /\
  illegal_feb29 "2000-02-29 00:00:00" = Ok false /\
  illegal_feb29 "1900-02-29 12:30:00" = Ok true /\
  illegal_feb29 "2001-02-28 00:00:00" = Ok false.
Proof. repeat split; reflexivity. Qed.

(** The nanosecond counts at the two ends of the 64-bit range are
    pandas' [Timestamp.min] and [Timestamp.max]. *)
Example timestamp_of_ns_bounds :
  Validate.timestamp_of_ns (- 2 ^ 63 + 1) = Some ts_min /\
  Validate.timestamp_of_ns (2 ^ 63 - 1) = Some ts_max /\
  Validate.timestamp_of_ns (- 2 ^ 63) = None.
Proof. repeat split; reflexivity. Qed.

(** A leap year next to a common year: the table has a row for February
    29, empty in the column of 2001, and flattening returns the five
    entries, the fractions of a second cut off. *)
Definition three_days_two_years : Series :=
  [(mkTimestamp 2000 2 28 0 0 0 5, 1%float);
   (mkTimestamp 2000 2 29 0 0 0 5, 2%float);
   (mkTimestamp 2000 3 1 0 0 0 5, 3%float);
   (mkTimestamp 2001 2 28 0 0 0 5, 4%float);
   (mkTimestamp 2001 3 1 0 0 0 5, 5%float)].

Example group_yearly_df_leap_year :
  group_yearly_df three_days_two_years =
    Ok (mkFrame [mkTimestamp 2000 2 28 0 0 0 0; mkTimestamp 2000 2 29 0 0 0 0;
                 mkTimestamp 2000 3 1 0 0 0 0]
                [2000; 2001]
                [[1%float; 4%float]; [2%float; PrimFloat.nan]; [3%float; 5%float]]).
Proof. vm_compute. reflexivity. Qed.

Example round_trip_leap_year :
  bind (group_yearly_df three_days_two_years) get_data_series =
    Ok [(mkTimestamp 2000 2 28 0 0 0 0, 1%float);
        (mkTimestamp 2000 2 29 0 0 0 0, 2%float);
        (mkTimestamp 2000 3 1 0 0 0 0, 3%float);
        (mkTimestamp 2001 2 28 0 0 0 0, 4%float);
        (mkTimestamp 2001 3 1 0 0 0 0, 5%float)].
Proof. vm_compute. reflexivity. Qed.

(** * Further properties *)

(** ** The frequency inferencer *)

Section InferFrequency.

(** pandas' [infer_freq] needs three dates at least and raises
    [ValueError] below; what it makes of a longer index, a frequency
    label or [None], is a service of the library. *)
Variable infer_regular : DatetimeIndex -> option string.

Definition infer_freq (index : DatetimeIndex) : Exc (option string) :=
  if (List.length index <? 3)%nat then Raise ValueError
  else Ok (infer_regular index).

Definition monthly_fallback : string :=
  "Could not infer frequency from index, using monthly frequency".

Definition infer_frequency (index : DatetimeIndex)
  : list Validate.LogRecord * Exc string :=
  match infer_freq index with
  | Raise e => ([], Raise e)
  | Ok (Some inf_freq) => ([], Ok inf_freq)
  | Ok None => ([(Validate.INFO, monthly_fallback)], Ok "M")
  end.

(** X6: the monthly fallback is for an index whose cadence the library cannot
    name, not for one too short to have any: below three dates
    [infer_frequency] raises [ValueError] and logs nothing.  When it
    returns, it has logged at most its one message, and then the frequency
    is monthly. *)
Theorem infer_frequency_outcome (index : DatetimeIndex) :
  match infer_frequency index with
  | (log, Raise e) => e = ValueError /\ log = [] /\ (List.length index < 3)%nat
  | (log, Ok f) =>
      (3 <= List.length index)%nat /\
      ((log = [] /\ infer_regular index = Some f) \/
       (log = [(Validate.INFO, monthly_fallback)] /\ f = "M" /\
        infer_regular index = None))
  end.
Proof.
  unfold infer_frequency, infer_freq.
  destruct (Nat.ltb_spec (List.length index) 3) as [Hlt | Hge].
  - repeat split. exact Hlt.
  - destruct (infer_regular index) as [f |]; split; try exact Hge.
    + left. split; reflexivity.
    + right. repeat split.
Qed.
End InferFrequency.

(** ** Edges of the flattener *)

Section FlattenerEdges.

Lemma concat_nils {A B : Type} (l : list B) :
  List.concat (map (fun _ : B => @nil A) l) = [].
Proof. induction l as [| b l IH]; [reflexivity | exact IH]. Qed.

(** X1: a table without columns or without rows cannot be flattened: the
    mask of an empty array cannot be inverted, and [TypeError] comes out
    instead of an empty series. *)
Theorem get_data_series_empty_table (df : DataFrame Timestamp Z float) :
  columns df = [] \/ index df = [] ->
  exists msg, get_data_series df = Raise (TypeError msg).
Proof.
  intros H. unfold get_data_series.
  assert (E : flatten
                (map (fun col =>
                        map (fun t => (PyStr.format_int col ++ "-" ++ strfstr t)%string)
                            (index df))
                     (columns df)) = []).
  { destruct H as [-> | ->]; [reflexivity |]. cbn [map]. apply concat_nils. }
  rewrite E. cbn [mapM bind invert]. eexists. reflexivity.
Qed.

Lemma get_data_series_empty_table_witness :
  exists msg,
    get_data_series (mkFrame [mkTimestamp 2000 1 1 0 0 0 0] [] [[]]) =
      Raise (TypeError msg) /\
    get_data_series (mkFrame [] [2001] []) = Raise (TypeError msg).
Proof.
  destruct (get_data_series_empty_table
              (mkFrame [mkTimestamp 2000 1 1 0 0 0 0] [] [[]])
              (or_introl eq_refl)) as [msg H].
  exists msg. split; [exact H |].
  vm_compute in H. injection H as <-. reflexivity.
Defined.

Lemma mask_length {A : Type} (a : list A) (m : list bool) :
  (List.length (mask a m) <= List.length a)%nat.
Proof.
  revert m. induction a as [| x a IH]; intros [| b m]; cbn [mask List.length];
    try lia.
  specialize (IH m). destruct b; cbn [List.length]; lia.
Qed.

(** X2: the flattened series holds no missing value, and at most one entry
    per cell of the table. *)
Theorem get_data_series_no_missing (df : DataFrame Timestamp Z float) (out : Series) :
  get_data_series df = Ok out ->
  (forall e, In e out -> PrimFloat.is_nan (snd e) = false) /\
  (List.length out <= List.length (columns df) * List.length (index df))%nat.
Proof.
  unfold get_data_series. intros H.
  destruct (mapM illegal_feb29 _) as [illegal |]; cbn [bind] in H; [| discriminate].
  destruct (invert illegal) as [boolidx |]; cbn [bind] in H; [| discriminate].
  destruct (to_datetime _) as [dt_idx |] eqn:Hdt; cbn [bind] in H; [| discriminate].
  unfold mkSeries in H.
  destruct (_ =? _)%nat; cbn [bind] in H; [| discriminate].
  injection H as <-. split.
  - intros e He. apply filter_In in He. destruct He as [_ He].
    destruct (PrimFloat.is_nan (snd e)); [discriminate He | reflexivity].
  - unfold dropna.
    pose proof (filter_length_le
                  (fun e : Timestamp * float => negb (PrimFloat.is_nan (snd e)))
                  (combine dt_idx
                     (mask (flatten (values (transpose df))) boolidx))) as H1.
    pose proof (mapM_length _ _ _ Hdt) as H2. rewrite source_idx in H2.
    rewrite length_combine in H1.
    match type of H2 with
    | _ = List.length (mask ?a ?m) => pose proof (mask_length a m) as H3
    end.
    rewrite length_map, flat_map_pair_length in H3.
    eapply Nat.le_trans; [exact H1 |].
    eapply Nat.le_trans; [apply Nat.le_min_l |].
    rewrite H2. exact H3.
Qed.

Lemma get_data_series_no_missing_witness :
  exists out,
    get_data_series leap_table = Ok out /\
    (forall e, In e out -> PrimFloat.is_nan (snd e) = false) /\
    (List.length out <= 4)%nat.
Proof.
  exists [(mkTimestamp 2000 2 28 0 0 0 0, 1%float);
          (mkTimestamp 2000 2 29 0 0 0 0, 3%float);
          (mkTimestamp 2001 2 28 0 0 0 0, 2%float)].
  split; [vm_compute; reflexivity |].
  apply (get_data_series_no_missing leap_table). vm_compute. reflexivity.
Defined.
End FlattenerEdges.

(** ** Outcomes of the validators *)

Section ValidatorOutcomes.
Import Validate.

(** X3: [validate_series] returns in two cases only: a series comes back as
    it is and nothing is logged; a one-column table comes back squeezed,
    after one warning.  Every other argument raises, and logs nothing:
    [AttributeError] when it has no [copy], [TypeError] when it has. *)
Theorem validate_series_outcome (o : PyObj) :
  match validate_series o with
  | (log, Ok r) =>
      (exists s, o = PySeries s /\ r = o /\ log = []) \/
      (exists df, o = PyDataFrame df /\ List.length (columns df) = 1%nat /\
                  r = squeeze df /\ log = [(WARNING, squeeze_warning)])
  | (log, Raise AttributeError) => has_copy o = false /\ log = []
  | (log, Raise (TypeError _)) =>
      has_copy o = true /\ log = [] /\
      (forall s, o <> PySeries s) /\
      (forall df, o = PyDataFrame df -> List.length (columns df) <> 1%nat)
  | (_, Raise _) => False
  end.
Proof.
  destruct o as [s | df | l | l | l | l | z | f | s | b | | c];
    try (cbn; repeat split; try discriminate; reflexivity).
  - left. exists s. repeat split.
  - unfold validate_series. cbn [copy].
    destruct (Nat.eqb_spec (List.length (columns df)) 1) as [E | E].
    + right. exists df. repeat split. exact E.
    + repeat split; try discriminate. intros df' [= <-]. exact E.
Qed.

(** X4: validating twice is validating once: what [validate_series] returns
    comes back from a second call as it is, with nothing logged.  A
    table of one row is the exception: what it returns is no series. *)
Theorem validate_series_idempotent (o r : PyObj) :
  snd (validate_series o) = Ok r ->
  (forall df, o = PyDataFrame df -> List.length (index df) <> 1%nat) ->
  (exists s, r = PySeries s) /\ validate_series r = ([], Ok r).
Proof.
  intros H Hrows.
  destruct o as [s | df | l | l | l | l | z | f | s | b | | c];
    try discriminate H.
  - injection H as <-. split; [exists s; reflexivity | reflexivity].
  - unfold validate_series in H. cbn [copy] in H.
    destruct (Nat.eqb_spec (List.length (columns df)) 1) as [Hc | Hc];
      cbn [snd] in H; [| discriminate H].
    injection H as <-.
    destruct (squeeze_one_column df Hc (Hrows df eq_refl)) as [s Hs].
    rewrite Hs. split; [exists s; reflexivity | reflexivity].
Qed.

Lemma validate_series_idempotent_witness :
  exists s,
    snd (validate_series (PyDataFrame table_1d)) = Ok (PySeries s) /\
    validate_series (PySeries s) = ([], Ok (PySeries s)).
Proof.
  destruct (validate_series_idempotent (PyDataFrame table_1d)
              (PySeries (mkGSeries (Some (SStr "s")) [SInt 1; SInt 2; SInt 3]
                                   [SInt 1; SInt 2; SInt 3])))
    as [[s E] H].
  - reflexivity.
  - intros df [= <-]. simpl. lia.
  - exists s. rewrite <- E. split; [reflexivity | exact H].
Defined.

Variable parse_date : string -> string -> Exc (option Timestamp).

(** X5: validating an index twice is validating it once: what a first call
    returns is datetime-typed, and a second call returns it as it is and
    logs nothing. *)
Theorem validate_index_idempotent (i r : Index) :
  snd (validate_index parse_date i) = Ok r ->
  is_datetime_index r = true /\
  validate_index parse_date r = ([], Ok r).
Proof.
  unfold validate_index. destruct (is_datetime_index i) eqn:Ei; cbn [negb snd].
  - intros [= <-]. rewrite Ei. split; reflexivity.
  - destruct (to_datetime_index parse_date i) as [dt |]; cbn [bind];
      [| discriminate].
    intros [= <-]. split; reflexivity.
Qed.
End ValidatorOutcomes.

Lemma validate_index_idempotent_witness :
  Validate.validate_index no_parse
    (Validate.DtIndex [Some (mkTimestamp 1970 1 1 0 0 0 1);
                       Some (mkTimestamp 1970 1 1 0 0 0 2)]) =
    ([], Ok (Validate.DtIndex [Some (mkTimestamp 1970 1 1 0 0 0 1);
                               Some (mkTimestamp 1970 1 1 0 0 0 2)])).
Proof.
  apply (validate_index_idempotent no_parse (Validate.Int64Index [1; 2])).
  reflexivity.
Defined.

(** ** The evaluator's table and its failures *)

Section EvaluatorFacts.
Import DistTest.

Variable std : list float -> float.
Variable kstest : list float -> string -> list float -> Z -> Exc (float * float).
Variable scipy_fit : string -> list float -> float -> Exc (list float).

Lemma mapM_first_raise {A B : Type} (f : A -> Exc B) (pre post : list A)
      (a : A) (e : PyExn) :
  (forall x, In x pre -> exists b, f x = Ok b) ->
  f a = Raise e ->
  mapM f (pre ++ a :: post) = Raise e.
Proof.
  intros Hpre Ha. induction pre as [| x pre IH]; cbn [app mapM].
  - rewrite Ha. reflexivity.
  - destruct (Hpre x (or_introl eq_refl)) as [b ->]. cbn [bind].
    rewrite IH; [reflexivity |]. intros y Hy. apply Hpre. right. exact Hy.
Qed.

(** X7: the first candidate whose fit or test raises ends the batch: its
    exception is what [dists_test] raises, and no table is built, however
    many candidates went through before it. *)
Theorem dists_test_first_failure series (pre post : list ContinuousDist)
        (D : ContinuousDist) N alpha (e : PyExn) :
  (forall D', In D' pre -> exists r, dist_test std kstest series D' N alpha = Ok r) ->
  dist_test std kstest series D N alpha = Raise e ->
  dists_test std kstest scipy_fit series (Some (pre ++ D :: post)%list) N alpha =
    Raise e.
Proof.
  intros Hpre HD. unfold dists_test.
  rewrite (mapM_first_raise _ pre post D e Hpre HD). reflexivity.
Qed.

(** X8: without a candidate there is no column "Distribution" to index the
    table by: an empty list of distributions raises [KeyError]. *)
Theorem dists_test_no_candidates series N alpha :
  dists_test std kstest scipy_fit series (Some []) N alpha = Raise KeyError.
Proof. reflexivity. Qed.

(** X9: row by row: the table has one row per candidate in the order given,
    named after it, and the row's "Reject H0" is its "KS p-value" compared
    with [alpha]. *)
Theorem dists_test_rows series (ds : list ContinuousDist) N alpha results :
  ds <> [] ->
  mapM (fun D => dist_test std kstest series D N alpha) ds = Ok results ->
  exists df ps,
    dists_test std kstest scipy_fit series (Some ds) N alpha = Ok df /\
    List.length ps = List.length ds /\
    index df = map (fun D => OStr (name D)) ds /\
    get_column df (LName "KS p-value") = Some (map OFloat ps) /\
    get_column df (LName "Reject H0") =
      Some (map (fun p => OBool (p <? alpha)%float) ps) /\
    get_column df (LName "Dist") = Some (map ODist ds).
Proof.
  intros Hne Hm.
  exists (table_of results ds), (map (fun r => snd (fst (fst r))) results).
  pose proof (mapM_length _ _ _ Hm) as Hlen.
  split; [apply dists_test_table; assumption |].
  split; [rewrite length_map; exact Hlen |].
  split; [apply (result_names std kstest series N alpha), Hm |].
  apply mapM_pointwise in Hm. unfold get_column. cbn.
  clear Hne Hlen. induction Hm as [| D r ds results Hr _ IH].
  - repeat split.
  - apply dist_test_inv in Hr. destruct Hr as [fitted [stat [p [_ [_ ->]]]]].
    destruct IH as [IH1 [IH2 IH3]].
    injection IH1 as IH1. injection IH2 as IH2. injection IH3 as IH3.
    cbn. rewrite IH1, IH2, IH3. repeat split.
Qed.
End EvaluatorFacts.

(** A fit that fails for the gamma family: the batch of norm, gamma and
    logistic ends with gamma's exception. *)
Definition fit_without_gamma (nm : string) (series : list float) (scale : float)
  : Exc (list float) :=
  if String.eqb nm "gamma" then Raise ValueError else fit_by_family nm series scale.

Lemma dists_test_first_failure_witness :
  DistTest.dists_test std_one kstest_half fit_without_gamma
                      [1%float; 2%float; 4%float]
                      (Some [DistTest.norm fit_without_gamma;
                             DistTest.gamma fit_without_gamma;
                             DistTest.logistic fit_without_gamma])
                      DistTest.default_N DistTest.default_alpha =
    Raise ValueError.
Proof.
  apply (dists_test_first_failure std_one kstest_half fit_without_gamma
           [1%float; 2%float; 4%float]
           [DistTest.norm fit_without_gamma]
           [DistTest.logistic fit_without_gamma]
           (DistTest.gamma fit_without_gamma)).
  - intros D' [<- | []]. eexists. reflexivity.
  - reflexivity.
Defined.

Lemma dists_test_rows_witness :
  exists df ps,
    DistTest.dists_test std_one kstest_half fit_by_family
                        [1%float; 2%float; 4%float]
                        (Some [DistTest.gamma fit_by_family;
                               DistTest.norm fit_by_family])
                        DistTest.default_N DistTest.default_alpha = Ok df /\
    index df = [DistTest.OStr "gamma"; DistTest.OStr "norm"] /\
    DistTest.get_column df (DistTest.LName "KS p-value") =
      Some (map DistTest.OFloat ps) /\
    DistTest.get_column df (DistTest.LName "Reject H0") =
      Some (map (fun p => DistTest.OBool (p <? DistTest.default_alpha)%float) ps).
Proof.
  destruct (dists_test_rows std_one kstest_half fit_by_family
              [1%float; 2%float; 4%float]
              [DistTest.gamma fit_by_family; DistTest.norm fit_by_family]
              DistTest.default_N DistTest.default_alpha
              [("gamma", 0.5%float, false, [2%float; 0%float; 1%float]);
               ("norm", 0.5%float, false, [0%float; 1%float])])
    as [df [ps [H1 [_ [H3 [H4 [H5 _]]]]]]].
  - discriminate.
  - reflexivity.
  - exists df, ps. repeat split; assumption.
Defined.


(** ** Series in time order *)

Section TimeOrderedSeries.

(** X10: the yearly table of a series in time order, at most one entry to
    the second, between 1678-01-01 and 2261-12-30.  [group_yearly_df]
    returns; the columns of the table are the years from the first
    entry's to the last one's, a year without entries included (and one
    year more when the last entry is the last nanosecond of its year);
    its rows are the labels of the entries moved to the year 2000, in
    time order and none twice; and the cell of a row and a year is the
    value of that year's entry under the row's label, NaN when the year
    has none. *)
Theorem group_yearly_df_time_ordered (e : Timestamp * float) (s' : Series) :
  forallb valid_timestamp (map fst (e :: s')) = true ->
  seconds_increasing (map fst (e :: s')) = true ->
  forallb groupable (map fst (e :: s')) = true ->
  exists df,
    group_yearly_df (e :: s') = Ok df /\
    columns df =
      years_between (year (fst e)) (last_bin_year (fst (last (e :: s') e))) /\
    StronglySorted time_lt (index df) /\
    (forall t, In t (index df) <->
               exists x, In x (e :: s') /\ t = in_year 2000 (fst x)) /\
    values df =
      map (fun t => map (fun y => lookup (year_group (e :: s') y) t) (columns df))
          (index df).
Proof.
  intros Hv Hs Hg. destruct (time_ordered _ Hv Hs) as [Hvalid Hsorted].
  destruct (group_yearly_df_ordered e s' Hvalid Hsorted
              (groupable_fit _ Hvalid Hg))
    as [idx [Hdf [_ [Hidx Hin]]]].
  eexists. split; [exact Hdf |]. cbn [columns index values].
  repeat split; try assumption; apply Hin.
Qed.

(** X11: the round trip of a series in time order, at most one entry to
    the second, between 1678-01-01 and 2261-12-30: whatever its cadence,
    with or without gaps, leap days or missing values,
    [get_data_series(group_yearly_df(s))] returns, and returns the
    entries of [s] that hold a value, in their order, each under its
    timestamp to the second. *)
Theorem yearly_round_trip_time_ordered (s : Series) :
  s <> [] ->
  forallb valid_timestamp (map fst s) = true ->
  seconds_increasing (map fst s) = true ->
  forallb groupable (map fst s) = true ->
  exists df,
    group_yearly_df s = Ok df /\
    get_data_series df = Ok (dropna (map second_entry s)).
Proof.
  intros Hne Hv Hs Hg. destruct (time_ordered _ Hv Hs) as [Hvalid Hsorted].
  destruct (ordered_round_trip s Hne Hvalid Hsorted (groupable_fit _ Hvalid Hg))
    as [df [H1 [H2 _]]].
  exists df. split; assumption.
Qed.

(** The grouper sorts first: the order in which the entries come plays
    no part in the table. *)
Lemma group_yearly_df_sorts (l : Series) :
  group_yearly_df (sort_index l) = group_yearly_df l.
Proof.
  unfold group_yearly_df, iter_groupby_year, groupby_year.
  rewrite (sort_index_sorted _ (sort_index_in_order l)). reflexivity.
Qed.

Lemma sorted_valid (s : Series) :
  forallb valid_timestamp (map fst s) = true ->
  forall x, In x (sort_index s) -> valid_fields (fst x) = true.
Proof.
  intros Hv x Hx. apply (proj1 (sort_index_in x s)) in Hx.
  rewrite forallb_forall in Hv. specialize (Hv (fst x) (in_map fst _ _ Hx)).
  unfold valid_timestamp in Hv. apply andb_prop in Hv. apply Hv.
Qed.

Lemma sort_index_nonempty (s : Series) : s <> [] -> sort_index s <> [].
Proof.
  intros Hne E. apply Hne. destruct s as [| e s']; [reflexivity |].
  assert (Hin : In e (sort_index (e :: s')))
    by (apply sort_index_in; left; reflexivity).
  rewrite E in Hin. contradiction.
Qed.

(** X14: the round trip puts a series in time order.  For entries in any
    order, no two of them in the same second, between 1678-01-01 and
    2261-12-30, [get_data_series(group_yearly_df(s))] returns the entries
    that hold a value, each under its timestamp to the second, sorted by
    time: a rearrangement of those of [s], and [s] itself only when [s]
    was in time order. *)
Theorem yearly_round_trip_sorts (s : Series) :
  s <> [] ->
  forallb valid_timestamp (map fst s) = true ->
  seconds_increasing (map fst (sort_index s)) = true ->
  forallb groupable (map fst s) = true ->
  exists df out,
    group_yearly_df s = Ok df /\
    get_data_series df = Ok out /\
    out = dropna (map second_entry (sort_index s)) /\
    Permutation out (dropna (map second_entry s)) /\
    StronglySorted sec_lt (map fst out).
Proof.
  intros Hne Hv Hs Hg.
  pose proof (sorted_valid s Hv) as Hvalid.
  pose proof (seconds_increasing_sorted _ Hs) as Hsorted.
  assert (Hg' : forallb groupable (map fst (sort_index s)) = true).
  { apply forallb_forall. intros t Ht. apply in_map_iff in Ht.
    destruct Ht as [x [<- Hx]]. apply (proj1 (sort_index_in x s)) in Hx.
    apply (all_groupable _ _ Hg Hx). }
  destruct (ordered_round_trip (sort_index s) (sort_index_nonempty s Hne)
              Hvalid Hsorted (groupable_fit _ Hvalid Hg'))
    as [df [H1 [H2 _]]].
  rewrite group_yearly_df_sorts in H1.
  exists df, (dropna (map second_entry (sort_index s))).
  split; [exact H1 |]. split; [exact H2 |]. split; [reflexivity |]. split.
  - unfold dropna. apply filter_perm, Permutation_map, sort_index_perm.
  - change (map second_entry (sort_index s))
      with (map (fun x : Timestamp * float => (to_second (fst x), snd x))
                (sort_index s)).
    rewrite dropna_map, map_map. cbn [fst].
    rewrite <- (map_map fst to_second).
    apply (StronglySorted_map sec_lt sec_lt).
    + intros a b _ _ Hab. exact Hab.
    + assert (Hf : map fst (dropna (sort_index s)) =
                   map fst (filter (fun x => negb (PrimFloat.is_nan (snd x)))
                                   (sort_index s))) by reflexivity.
      rewrite Hf. clear Hf.
      apply (StronglySorted_of_map sec_lt
               (fun a b : Timestamp * float => sec_lt (fst a) (fst b)) fst)
        in Hsorted; [| intros a b _ _ Hab; exact Hab].
      apply (StronglySorted_filter _ (fun x => negb (PrimFloat.is_nan (snd x))))
        in Hsorted.
      apply (StronglySorted_map
               (fun a b : Timestamp * float => sec_lt (fst a) (fst b)) sec_lt fst);
        [intros a b _ _ Hab; exact Hab | exact Hsorted].
Qed.


End TimeOrderedSeries.

(** Three entries at uneven distances over four years: none in 2001,
    the one of 2002 without a value, a leap day in 2000. *)
Definition uneven_series : Series :=
  [(mkTimestamp 1999 12 31 23 59 59 7, 1%float);
   (mkTimestamp 2000 2 29 12 0 0 0, 2%float);
   (mkTimestamp 2002 6 15 0 0 0 0, PrimFloat.nan);
   (mkTimestamp 2002 6 15 0 0 1 0, 3%float)].

Lemma group_yearly_df_time_ordered_witness :
  exists df,
    group_yearly_df uneven_series = Ok df /\
    columns df = [1999; 2000; 2001; 2002] /\
    index df = [mkTimestamp 2000 2 29 12 0 0 0; mkTimestamp 2000 6 15 0 0 0 0;
                mkTimestamp 2000 6 15 0 0 1 0; mkTimestamp 2000 12 31 23 59 59 0].
Proof.
  destruct (group_yearly_df_time_ordered
              (mkTimestamp 1999 12 31 23 59 59 7, 1%float)
              [(mkTimestamp 2000 2 29 12 0 0 0, 2%float);
               (mkTimestamp 2002 6 15 0 0 0 0, PrimFloat.nan);
               (mkTimestamp 2002 6 15 0 0 1 0, 3%float)])
    as [df [H1 [H2 _]]].
  - vm_compute. reflexivity.
  - vm_compute. reflexivity.
  - vm_compute. reflexivity.
  - exists df. split; [exact H1 |]. split; [exact H2 |].
    vm_compute in H1. injection H1 as <-. reflexivity.
Defined.

Lemma yearly_round_trip_time_ordered_witness :
  exists df,
    group_yearly_df uneven_series = Ok df /\
    get_data_series df =
      Ok [(mkTimestamp 1999 12 31 23 59 59 0, 1%float);
          (mkTimestamp 2000 2 29 12 0 0 0, 2%float);
          (mkTimestamp 2002 6 15 0 0 1 0, 3%float)].
Proof.
  destruct (yearly_round_trip_time_ordered uneven_series) as [df [H1 H2]].
  - discriminate.
  - vm_compute. reflexivity.
  - vm_compute. reflexivity.
  - vm_compute. reflexivity.
  - exists df. split; [exact H1 |]. rewrite H2. vm_compute. reflexivity.
Defined.

(** The same entries out of order. *)
Definition shuffled_series : Series :=
  [(mkTimestamp 2002 6 15 0 0 1 0, 3%float);
   (mkTimestamp 1999 12 31 23 59 59 7, 1%float);
   (mkTimestamp 2002 6 15 0 0 0 0, PrimFloat.nan);
   (mkTimestamp 2000 2 29 12 0 0 0, 2%float)].

Lemma yearly_round_trip_sorts_witness :
  exists df,
    group_yearly_df shuffled_series = Ok df /\
    get_data_series df =
      Ok [(mkTimestamp 1999 12 31 23 59 59 0, 1%float);
          (mkTimestamp 2000 2 29 12 0 0 0, 2%float);
          (mkTimestamp 2002 6 15 0 0 1 0, 3%float)].
Proof.
  destruct (yearly_round_trip_sorts shuffled_series) as [df [out [H1 [H2 [H3 _]]]]].
  - discriminate.
  - vm_compute. reflexivity.
  - vm_compute. reflexivity.
  - vm_compute. reflexivity.
  - exists df. split; [exact H1 |]. rewrite H2, H3. vm_compute. reflexivity.
Defined.


(** ** The decision of the test *)

Section DecisionFacts.
Import DistTest.

Variable std : list float -> float.
Variable kstest : list float -> string -> list float -> Z -> Exc (float * float).

(** X12: a p-value that is not a number rejects nothing: when the test
    returns NaN, or [alpha] is NaN, the hypothesis is not rejected. *)
Theorem dist_test_nan_never_rejects series dist N alpha nm p rej fitted :
  dist_test std kstest series dist N alpha = Ok (nm, p, rej, fitted) ->
  PrimFloat.is_nan p = true \/ PrimFloat.is_nan alpha = true ->
  rej = false.
Proof.
  intros H Hnan. apply dist_test_inv in H.
  destruct H as [fitted' [stat [p' [_ [_ E]]]]].
  injection E as _ -> -> _. apply ltb_nan, Hnan.
Qed.

(** X13: the significance level plays no part in the fit or in the test:
    under another [alpha] the name, the p-value and the parameters are
    the same, and the flag is the p-value compared with the new level. *)
Theorem dist_test_alpha_only_flag series dist N alpha alpha' nm p rej fitted :
  dist_test std kstest series dist N alpha = Ok (nm, p, rej, fitted) ->
  dist_test std kstest series dist N alpha' =
    Ok (nm, p, (p <? alpha')%float, fitted).
Proof.
  intros H. apply dist_test_inv in H.
  destruct H as [fitted' [stat [p' [Hf [Hk E]]]]].
  injection E as -> -> _ ->.
  unfold dist_test. rewrite Hf. cbn [bind]. rewrite Hk. reflexivity.
Qed.
End DecisionFacts.

Lemma dist_test_nan_never_rejects_witness :
  exists rej,
    DistTest.dist_test std_one kstest_nan [1%float; 2%float; 4%float]
                       (DistTest.norm fit_by_family)
                       DistTest.default_N DistTest.default_alpha =
      Ok ("norm", PrimFloat.nan, rej, [0%float; 1%float]) /\
    rej = false.
Proof.
  exists false. split; [reflexivity |].
  apply (dist_test_nan_never_rejects std_one kstest_nan
           [1%float; 2%float; 4%float] (DistTest.norm fit_by_family)
           DistTest.default_N DistTest.default_alpha
           "norm" PrimFloat.nan false [0%float; 1%float]);
    [reflexivity | left; reflexivity].
Defined.

Lemma dist_test_alpha_only_flag_witness :
  DistTest.dist_test std_one kstest_half [1%float; 2%float; 4%float]
                     (DistTest.norm fit_by_family)
                     DistTest.default_N 0.75%float =
    Ok ("norm", 0.5%float, true, [0%float; 1%float]).
Proof.
  apply (dist_test_alpha_only_flag std_one kstest_half
           [1%float; 2%float; 4%float] (DistTest.norm fit_by_family)
           DistTest.default_N DistTest.default_alpha 0.75%float
           "norm" 0.5%float false [0%float; 1%float]).
  reflexivity.
Defined.

(** ** Every outcome of the index validator *)

Section IndexOutcomes.
Import Validate.

Variable parse_date : string -> string -> Exc (option Timestamp).

(** X15: [validate_index] returns a datetime-typed index of the same
    length: the argument itself, with nothing logged, when it is
    datetime-typed already, and what [to_datetime] makes of it after one
    message otherwise.  It raises what [to_datetime] raises, never for a
    datetime-typed index, and by then the message that announces the
    conversion has been logged. *)
Theorem validate_index_outcome (i : Index) :
  match validate_index parse_date i with
  | (log, Ok r) =>
      is_datetime_index r = true /\ index_length r = index_length i /\
      ((is_datetime_index i = true /\ r = i /\ log = []) \/
       (is_datetime_index i = false /\
        (exists dt, to_datetime_index parse_date i = Ok dt /\ r = DtIndex dt) /\
        log = [(INFO, conversion_info i)]))
  | (log, Raise e) =>
      is_datetime_index i = false /\
      to_datetime_index parse_date i = Raise e /\
      log = [(INFO, conversion_info i)]
  end.
Proof.
  unfold validate_index. destruct (is_datetime_index i) eqn:Ei; cbn [negb].
  - repeat split; [exact Ei |]. left. repeat split.
  - destruct (to_datetime_index parse_date i) as [dt |] eqn:E; cbn [bind].
    + repeat split.
      * cbn [index_length]. apply (to_datetime_index_length parse_date i dt E).
      * right. repeat split. exists dt. split; reflexivity.
    + repeat split.
Qed.
End IndexOutcomes.

(** An index of booleans: the message comes first, then the conversion
    raises. *)
Example validate_index_bool :
  exists msg,
    Validate.validate_index no_parse (Validate.BoolIndex [true; false]) =
      ([(Validate.INFO,
         Validate.conversion_info (Validate.BoolIndex [true; false]))],
       Raise (TypeError msg)).
Proof. eexists. reflexivity. Qed.
